(** * DeckBox generator: a shallow embedding of [boxes/generators/deckbox.py]

    The generator derives the box dimensions from five parameters, defines
    two custom edge profiles ([InsetEdge], [FingerHoleEdge]), places the
    finger holes of the dividers and emits every wall of the box through the
    drawing primitives of the [Boxes] base class.

    Conventions of the embedding.
    - Lengths are Python floats in the source; here they are exact rationals
      ([Q]), compared with [==].  Rounding of binary floating point is
      outside the model.  [num], [tabs] and angles in degrees are Python
      ints, here [Z].
    - The primitives of the base class ([corner], [edge], [fingerHolesAt],
      [addPart], [rectangularWall], [saved_context]) are not part of the
      generator.  A call to one of them is recorded, with its arguments, in
      the order the source makes it: a method of the generator denotes the
      sequence of calls it makes and how it ends (returns or raises).  An
      optional argument the source does not pass is recorded as [None].
      The primitives themselves are taken to return: what the renderer
      does with the arguments it is handed is not the generator's code. *)

From Stdlib Require Import ZArith QArith List String Ascii Bool Lia Lqa.
Import ListNotations.

Local Open Scope string_scope.
Local Open Scope Q_scope.

(** ** Settings of the two custom edges *)

Module InsetEdgeSettings.
Record t : Type := mk { thickness : Q }.
End InsetEdgeSettings.

Module FingerHoleEdgeSettings.
Record t : Type := mk { thickness : Q; wallheight : Q }.
End FingerHoleEdgeSettings.

(** An edge object handed to [addPart]: its class and its settings. *)
Inductive EdgePart : Type :=
| InsetEdgeObj (settings : InsetEdgeSettings.t)
| FingerHoleEdgeObj (settings : FingerHoleEdgeSettings.t).

(** The two bound methods [render] passes as [callback=[...]]. *)
Inductive Callback : Type :=
| cb_divider_bottom
| cb_divider_back_and_front.

(** ** Calls on the base class *)

Inductive call : Type :=
| corner (degrees : Z) (radius : option Q)
| edge (length : Q) (tabs : Z)
| fingerHolesAt (x y length : Q) (angle : Z)
| addPart (char : ascii) (part : EdgePart)
| rectangularWall (x y : Q) (edges : string)
    (callback : option (list Callback)) (move : string)
    (label : option string)
| ctx_save
| ctx_restore.

(** The error kinds the specification names.  No statement of the source
    raises any of them; they are here so that "fails with ..." can be
    stated and checked. *)
Inductive error : Type :=
| InvalidParameter
| GeometryUnderflow
| UnregisteredEdgeSymbol.

Inductive outcome (A : Type) : Type :=
| Returned (a : A)
| Raised (e : error).
Arguments Returned {A} a.
Arguments Raised {A} e.

(** A computation: the calls it made, in order, and how it ended. *)
Definition Draw (A : Type) : Type := (list call * outcome A)%type.

Definition ret {A : Type} (a : A) : Draw A := ([], Returned a).

Definition bind {A B : Type} (m : Draw A) (k : A -> Draw B) : Draw B :=
  match m with
  | (tr, Returned a) => let (tr', o) := k a in ((tr ++ tr')%list, o)
  | (tr, Raised e) => (tr, Raised e)
  end.

Definition do_call (c : call) : Draw unit := ([c], Returned tt).

Definition calls {A : Type} (m : Draw A) : list call := fst m.

Definition result {A : Type} (m : Draw A) : outcome A := snd m.

Notation "m1 ;; m2" := (bind m1 (fun _ => m2))
  (at level 61, right associativity).

(** [for i in l: body(i)] *)
Fixpoint for_each {A : Type} (l : list A) (body : A -> Draw unit) : Draw unit :=
  match l with
  | [] => ret tt
  | i :: l' => body i ;; for_each l' body
  end.

(** Python's [range(lo, hi)] and [range(hi)]. *)
Definition range2 (lo hi : Z) : list Z :=
  map (fun k => (lo + Z.of_nat k)%Z) (seq 0 (Z.to_nat (hi - lo))).

Definition range (hi : Z) : list Z := range2 0 hi.

(** [with self.saved_context(): body] *)
Definition saved_context (body : Draw unit) : Draw unit :=
  do_call ctx_save ;; body ;; do_call ctx_restore.

(** ** InsetEdge *)

Module InsetEdge.

Definition __call__ (settings : InsetEdgeSettings.t) (length : Q) : Draw unit :=
  let t := InsetEdgeSettings.thickness settings in
  do_call (corner 90 None) ;;
  do_call (edge t 2) ;;
  do_call (corner (-90) None) ;;
  do_call (edge length 2) ;;
  do_call (corner (-90) None) ;;
  do_call (edge t 2) ;;
  do_call (corner 90 None).

End InsetEdge.

(** ** FingerHoleEdge *)

Module FingerHoleEdge.

Definition __call__ (settings : FingerHoleEdgeSettings.t) (length : Q) : Draw unit :=
  let depth := FingerHoleEdgeSettings.wallheight settings / 5 in
  do_call (edge (length / 2 - 10) 2) ;;
  do_call (corner 90 None) ;;
  do_call (edge depth 2) ;;
  do_call (corner (-180) (Some 10)) ;;
  do_call (edge depth 2) ;;
  do_call (corner 90 None) ;;
  do_call (edge (length / 2 - 10) 2).

End FingerHoleEdge.

(** ** DeckBox *)

Module DeckBox.

(** The arguments of the generator: [--deckheight], [--cardwidth],
    [--cardheight], [--num] and the material [thickness] of the base
    class. *)
Record t : Type := mk {
  deckheight : Q;
  cardwidth : Q;
  cardheight : Q;
  num : Z;
  thickness : Q
}.

Definition boxwidth (self : t) : Q :=
  inject_Z (num self) * (deckheight self + thickness self) + thickness self.

Definition boxdepth (self : t) : Q :=
  cardwidth self + 2 * thickness self.

Definition h (self : t) : Q := cardheight self.

Definition divider_bottom (self : t) : Draw unit :=
  let t := thickness self in
  let c := deckheight self in
  let y := boxdepth self in
  for_each (range2 1 (num self)) (fun i =>
    do_call (fingerHolesAt (0.5 * t + (c + t) * inject_Z i) 0 y 90)).

Definition divider_back_and_front (self : t) : Draw unit :=
  let t := thickness self in
  let c := deckheight self in
  let y := cardheight self in
  for_each (range2 1 (num self)) (fun i =>
    do_call (fingerHolesAt (0.5 * t + (c + t) * inject_Z i) 0 y 90)).

Definition render (self : t) : Draw unit :=
  let h := h self in
  let t := thickness self in
  let x := boxwidth self in
  let y := boxdepth self in
  let c := deckheight self in
  do_call (addPart "a" (InsetEdgeObj (InsetEdgeSettings.mk t))) ;;
  do_call (addPart "A" (FingerHoleEdgeObj (FingerHoleEdgeSettings.mk t h))) ;;
  saved_context (
    do_call (rectangularWall x (y - t * 0.2) "eFee" None "right" (Some "Lid")) ;;
    do_call (rectangularWall x y "ffff" (Some [cb_divider_bottom])
               "right" (Some "Bottom"))) ;;
  do_call (rectangularWall x y "eEEE" None "up only" None) ;;
  do_call (rectangularWall x t "feee" None "up" (Some "Lip Front")) ;;
  do_call (rectangularWall x t "eefe" None "up" (Some "Lip Back")) ;;
  saved_context (
    do_call (rectangularWall x (h + t) "FfFf" (Some [cb_divider_back_and_front])
               "right" (Some "Back")) ;;
    do_call (rectangularWall x (h + t) "FfFf" (Some [cb_divider_back_and_front])
               "right" (Some "Front"))) ;;
  do_call (rectangularWall x (h + t) "EEEE" None "up only" None) ;;
  saved_context (
    do_call (rectangularWall y (h + t) "FFEF" None "right" (Some "Outer Side Left")) ;;
    do_call (rectangularWall y (h + t) "FFaF" None "right" (Some "Outer Side Right"))) ;;
  do_call (rectangularWall y (h + t) "fFfF" None "up only" None) ;;
  saved_context (
    do_call (rectangularWall y h "Aeee" None "right" (Some "Inner Side Left")) ;;
    do_call (rectangularWall y h "Aeee" None "right" (Some "Inner Side Right"))) ;;
  do_call (rectangularWall y h "eAee" None "up only" None) ;;
  saved_context (
    do_call (rectangularWall (y - t * 0.2) t "fEeE" None "right" (Some "Lid Lip"))) ;;
  do_call (rectangularWall y (t * 2) "efee" None "up only" None) ;;
  for_each (range (num self - 1)) (fun i =>
    do_call (rectangularWall h y "fAff" None "right" (Some "Divider"))) ;;
  for_each (range (num self)) (fun i =>
    do_call (rectangularWall c h "eeee" None "right" (Some "Front inlay")) ;;
    do_call (rectangularWall c h "eeee" None "right" (Some "Back inlay"))) ;;
  do_call (rectangularWall x (y - 2 * t) "eeee" None "right" (Some "Lid topper")).

End DeckBox.

(** ** Observations on a sequence of calls *)

(** The angle a call turns by: the [degrees] of a [corner], nothing else
    turns. *)
Definition turning (c : call) : Z :=
  match c with
  | corner degrees _ => degrees
  | _ => 0%Z
  end.

Definition net_turning (tr : list call) : Z :=
  fold_right (fun c acc => (turning c + acc)%Z) 0%Z tr.

(** The [tabs] argument of every [edge] call, in order. *)
Definition edge_tabs (tr : list call) : list Z :=
  flat_map (fun c => match c with edge _ tabs => [tabs] | _ => [] end) tr.

(** The lengths of the [edge] calls, in order. *)
Definition edge_lengths (tr : list call) : list Q :=
  flat_map (fun c => match c with edge length _ => [length] | _ => [] end) tr.

(** The x-offsets of the [fingerHolesAt] calls, in order. *)
Definition hole_xs (tr : list call) : list Q :=
  flat_map (fun c => match c with fingerHolesAt x _ _ _ => [x] | _ => [] end) tr.

Definition is_wall (c : call) : bool :=
  match c with
  | rectangularWall _ _ _ _ _ _ => true
  | _ => false
  end.

Definition wall_dims (c : call) : option (Q * Q) :=
  match c with
  | rectangularWall x y _ _ _ _ => Some (x, y)
  | _ => None
  end.

Definition wall_edges (c : call) : option string :=
  match c with
  | rectangularWall _ _ edges _ _ _ => Some edges
  | _ => None
  end.

Definition wall_move (c : call) : option string :=
  match c with
  | rectangularWall _ _ _ _ move _ => Some move
  | _ => None
  end.

Definition wall_label (c : call) : option string :=
  match c with
  | rectangularWall _ _ _ _ _ label => label
  | _ => None
  end.

Definition has_label (l : string) (c : call) : bool :=
  match wall_label c with
  | Some l' => String.eqb l l'
  | None => false
  end.

(** The words of a [move] argument, as [str.split()] gives them. *)
Fixpoint split_words (cur : string) (s : string) : list string :=
  match s with
  | EmptyString =>
      match cur with EmptyString => [] | _ => [cur] end
  | String ch s' =>
      if Ascii.eqb ch " " then
        match cur with
        | EmptyString => split_words EmptyString s'
        | _ => cur :: split_words EmptyString s'
        end
      else split_words (cur ++ String ch EmptyString) s'
  end.

(** Modelled from the spec: the advance modes of the renderer, whose code
    is not part of the generator.  A wall is emitted either
    "advance-after-drawing" or "advance-without-drawing"; the second is
    the [move] argument carrying the word [only] (the undrawn placeholder
    of a group). *)
Definition drawn (c : call) : bool :=
  match wall_move c with
  | Some move => negb (existsb (String.eqb "only") (split_words EmptyString move))
  | None => false
  end.

(** The walls that end up in the drawing. *)
Definition panels (tr : list call) : list call := filter drawn tr.

(** The drawn walls carrying a given label. *)
Definition labelled (l : string) (tr : list call) : list call :=
  filter (has_label l) (panels tr).

(** The walls that only reserve room on the sheet. *)
Definition undrawn (tr : list call) : list call :=
  filter (fun c => is_wall c && negb (drawn c)) tr.

(** The labels [render] gives to walls outside its two loops. *)
Definition fixed_labels : list string :=
  [ "Lid"; "Bottom"; "Lip Front"; "Lip Back"; "Back"; "Front";
    "Outer Side Left"; "Outer Side Right";
    "Inner Side Left"; "Inner Side Right"; "Lid Lip"; "Lid topper" ].

(** Modelled from the spec: the edge registry of the renderer, whose
    code is not part of the generator.  [addPart] binds the character of
    the part it is handed ([p.char] in the source); were a character
    bound twice, the later binding would stand, which no run does. *)
Fixpoint registered (tr : list call) (ch : ascii) : option EdgePart :=
  match tr with
  | [] => None
  | c :: tr' =>
      match registered tr' ch with
      | Some p => Some p
      | None =>
          match c with
          | addPart ch' p => if Ascii.eqb ch ch' then Some p else None
          | _ => None
          end
      end
  end.

Definition is_inset (o : option EdgePart) : bool :=
  match o with
  | Some (InsetEdgeObj _) => true
  | _ => false
  end.

Definition is_finger_hole (o : option EdgePart) : bool :=
  match o with
  | Some (FingerHoleEdgeObj _) => true
  | _ => false
  end.

(** Whether an edge code names, on one of its sides, a character bound
    to an [InsetEdge] in the registry. *)
Definition uses_inset (tr : list call) (edges : string) : bool :=
  existsb (fun ch => is_inset (registered tr ch)) (list_ascii_of_string edges).

Definition uses_finger_hole (tr : list call) (edges : string) : bool :=
  existsb (fun ch => is_finger_hole (registered tr ch)) (list_ascii_of_string edges).

(** The default arguments of the generator with 3 mm material. *)
Definition scenarioA : DeckBox.t := DeckBox.mk 65 68 92 3 3.

(** The same box with a single compartment. *)
Definition scenarioB : DeckBox.t := DeckBox.mk 65 68 92 1 3.

(** ** Path geometry *)

Module Turtle.

(** The paths of this generator turn by multiples of 90 degrees only, so
    the pen always heads along one of the two axes. *)
Inductive axis : Type := East | North | West | South.

Definition left_of (a : axis) : axis :=
  match a with
  | East => North
  | North => West
  | West => South
  | South => East
  end.

(** Turning by [degrees], counter-clockwise when positive; defined for
    multiples of 90. *)
Definition rotate (a : axis) (degrees : Z) : option axis :=
  if (degrees mod 90 =? 0)%Z then
    match ((degrees / 90) mod 4)%Z with
    | 0%Z => Some a
    | 1%Z => Some (left_of a)
    | 2%Z => Some (left_of (left_of a))
    | _ => Some (left_of (left_of (left_of a)))
    end
  else None.

Definition unit (a : axis) : Q * Q :=
  match a with
  | East => (1, 0)
  | North => (0, 1)
  | West => (-1, 0)
  | South => (0, -1)
  end.

(** Position and heading of the pen. *)
Record pose : Type := mk { px : Q; py : Q; heading : axis }.

(** Modelled from the spec: the "advance" primitive of the base class,
    whose code is not part of the generator: the pen moves [length] along
    its heading. *)
Definition advance (p : pose) (length : Q) : pose :=
  let (dx, dy) := unit (heading p) in
  mk (px p + length * dx) (py p + length * dy) (heading p).

(** Modelled from the spec: the "turn" primitive of the base class, whose
    code is not part of the generator: the heading changes by [degrees]
    along a circular arc of the given corner [radius].  The centre of the
    arc lies [radius] to the left of the pen for a positive angle and to
    its right for a negative one; the pen ends on the far side of the
    centre, seen along the new heading.  Radius 0 turns on the spot. *)
Definition turn (p : pose) (degrees : Z) (radius : Q) : option pose :=
  let side := if (0 <=? degrees)%Z then 90%Z else (-90)%Z in
  match rotate (heading p) side,
        rotate (heading p) (degrees + side),
        rotate (heading p) degrees with
  | Some to_centre, Some to_centre', Some heading' =>
      let (ax, ay) := unit to_centre in
      let (bx, by_) := unit to_centre' in
      Some (mk (px p + radius * (ax - bx)) (py p + radius * (ay - by_)) heading')
  | _, _, _ => None
  end.

Definition step (p : pose) (c : call) : option pose :=
  match c with
  | corner degrees (Some radius) => turn p degrees radius
  | corner degrees None => turn p degrees 0
  | edge length _ => Some (advance p length)
  | _ => Some p
  end.

Fixpoint run (p : pose) (tr : list call) : option pose :=
  match tr with
  | [] => Some p
  | c :: tr' =>
      match step p c with
      | Some p' => run p' tr'
      | None => None
      end
  end.

End Turtle.

(** How far pose [b] lies from pose [a] in the direction [d]. *)
Definition along (d : Q * Q) (a b : Turtle.pose) : Q :=
  (Turtle.px b - Turtle.px a) * fst d + (Turtle.py b - Turtle.py a) * snd d.

(** ** Dispatch *)

(** Calling an edge object with a length: Python picks the [__call__] of
    the class of the object. *)
Definition call_edge (part : EdgePart) (length : Q) : Draw unit :=
  match part with
  | InsetEdgeObj settings => InsetEdge.__call__ settings length
  | FingerHoleEdgeObj settings => FingerHoleEdge.__call__ settings length
  end.

(** Invoking a callback of a wall: the bound method [render] handed
    over. *)
Definition invoke (self : DeckBox.t) (cb : Callback) : Draw unit :=
  match cb with
  | cb_divider_bottom => DeckBox.divider_bottom self
  | cb_divider_back_and_front => DeckBox.divider_back_and_front self
  end.

(** The callbacks a call carries: those of the [callback=] list of a
    wall, none otherwise. *)
Definition wall_callbacks (c : call) : list Callback :=
  match c with
  | rectangularWall _ _ _ (Some cbs) _ _ => cbs
  | _ => []
  end.

(** ** Saved contexts *)

(** Whether the saves and restores of a sequence of calls pair up, one
    context open at a time; [inside] tells whether one is open at the
    start. *)
Fixpoint well_grouped (inside : bool) (tr : list call) : bool :=
  match tr with
  | [] => negb inside
  | ctx_save :: tr' => negb inside && well_grouped true tr'
  | ctx_restore :: tr' => inside && well_grouped false tr'
  | _ :: tr' => well_grouped inside tr'
  end.

(** The calls made while a saved context is open. *)
Fixpoint in_groups (inside : bool) (tr : list call) : list call :=
  match tr with
  | [] => []
  | ctx_save :: tr' => in_groups true tr'
  | ctx_restore :: tr' => in_groups false tr'
  | c :: tr' =>
      if inside then c :: in_groups inside tr' else in_groups inside tr'
  end.

(** The call that follows each restore, if any. *)
Fixpoint after_restore (tr : list call) : list (option call) :=
  match tr with
  | [] => []
  | ctx_restore :: tr' => hd_error tr' :: after_restore tr'
  | _ :: tr' => after_restore tr'
  end.

Definition is_addPart (c : call) : bool :=
  match c with
  | addPart _ _ => true
  | _ => false
  end.

Definition is_ctx_save (c : call) : bool :=
  match c with
  | ctx_save => true
  | _ => false
  end.

Definition is_ctx_restore (c : call) : bool :=
  match c with
  | ctx_restore => true
  | _ => false
  end.

(** The characters the edge codes of this generator are written in:
    the four it takes from the base class and its own two. *)
Definition edge_alphabet : list ascii :=
  [ "e"; "E"; "f"; "F"; "a"; "A" ]%char.

Definition in_alphabet (ch : ascii) : bool :=
  existsb (Ascii.eqb ch) edge_alphabet.

Definition is_custom (ch : ascii) : bool :=
  Ascii.eqb ch "a" || Ascii.eqb ch "A".

(** Whether a call, if it is a wall, has an edge code of four
    characters of the alphabet. *)
Definition well_formed_edges (c : call) : bool :=
  match wall_edges c with
  | Some edges =>
      (String.length edges =? 4)%nat
      && forallb in_alphabet (list_ascii_of_string edges)
  | None => true
  end.

Definition has_callbacks (c : call) : bool :=
  match wall_callbacks c with
  | [] => false
  | _ :: _ => true
  end.

(** The width of a wall, and the sum of a list of lengths. *)
Definition wall_width (c : call) : Q :=
  match wall_dims c with
  | Some (x, _) => x
  | None => 0
  end.

Definition Qsum (l : list Q) : Q := fold_right Qplus 0 l.

(** * Properties *)

(** ** The call monad *)

Lemma bind_returned {A B : Type} (tr : list call) (a : A) (k : A -> Draw B) :
  bind (tr, Returned a) k = ((tr ++ calls (k a))%list, result (k a)).
Proof. unfold bind, calls, result. destruct (k a); reflexivity. Qed.

Lemma for_each_do_call {A : Type} (l : list A) (f : A -> call) :
  for_each l (fun i => do_call (f i)) = (map f l, Returned tt).
Proof.
  induction l as [|i l IH]; cbn [for_each map].
  - reflexivity.
  - rewrite IH. reflexivity.
Qed.

Lemma for_each_returns {A : Type} (l : list A) (body : A -> Draw unit) :
  (forall i, result (body i) = Returned tt) ->
  for_each l body = (flat_map (fun i => calls (body i)) l, Returned tt).
Proof.
  intros Hb. induction l as [|i l IH]; cbn [for_each flat_map].
  - reflexivity.
  - rewrite IH. specialize (Hb i). destruct (body i) as [tr o].
    cbn in Hb. subst o. reflexivity.
Qed.

(** ** Python's range *)

Lemma range2_length (lo hi : Z) :
  List.length (range2 lo hi) = Z.to_nat (hi - lo).
Proof. unfold range2. now rewrite length_map, length_seq. Qed.

Lemma range2_nth_error (lo hi : Z) (k : nat) :
  (k < Z.to_nat (hi - lo))%nat ->
  nth_error (range2 lo hi) k = Some (lo + Z.of_nat k)%Z.
Proof.
  intros Hk. unfold range2.
  rewrite nth_error_map, nth_error_nth' with (d := 0%nat)
    by now rewrite length_seq.
  rewrite seq_nth by assumption. reflexivity.
Qed.

(** ** Derived dimensions *)

(** C1. For parameters with [num >= 1] and positive [deckheight],
    [cardwidth], [cardheight] and [thickness], the derived dimensions are
    exactly [boxwidth = num * (deckheight + thickness) + thickness],
    [boxdepth = cardwidth + 2 * thickness] and [h = cardheight]: the
    source applies no rounding or other adjustment to them. *)
Theorem derived_dimensions_exact (p : DeckBox.t) :
  (1 <= DeckBox.num p)%Z ->
  0 < DeckBox.deckheight p ->
  0 < DeckBox.cardwidth p ->
  0 < DeckBox.cardheight p ->
  0 < DeckBox.thickness p ->
  DeckBox.boxwidth p =
    inject_Z (DeckBox.num p) * (DeckBox.deckheight p + DeckBox.thickness p)
    + DeckBox.thickness p /\
  DeckBox.boxdepth p = DeckBox.cardwidth p + 2 * DeckBox.thickness p /\
  DeckBox.h p = DeckBox.cardheight p.
Proof. intros _ _ _ _ _. repeat split. Qed.

Lemma derived_dimensions_exact_witness :
  (1 <= DeckBox.num scenarioA)%Z /\
  0 < DeckBox.deckheight scenarioA /\
  0 < DeckBox.cardwidth scenarioA /\
  0 < DeckBox.cardheight scenarioA /\
  0 < DeckBox.thickness scenarioA /\
  DeckBox.boxwidth scenarioA = inject_Z 3 * (65 + 3) + 3 /\
  DeckBox.boxdepth scenarioA = 68 + 2 * 3 /\
  DeckBox.h scenarioA = 92.
Proof.
  assert (Hn : (1 <= DeckBox.num scenarioA)%Z) by (cbn; lia).
  assert (Hc : 0 < DeckBox.deckheight scenarioA) by reflexivity.
  assert (Hw : 0 < DeckBox.cardwidth scenarioA) by reflexivity.
  assert (Hh : 0 < DeckBox.cardheight scenarioA) by reflexivity.
  assert (Ht : 0 < DeckBox.thickness scenarioA) by reflexivity.
  repeat (split; [assumption|]).
  exact (derived_dimensions_exact scenarioA Hn Hc Hw Hh Ht).
Defined.

(** ** Divider holes *)

Lemma divider_bottom_calls (p : DeckBox.t) :
  DeckBox.divider_bottom p =
    (map (fun i => fingerHolesAt
            (0.5 * DeckBox.thickness p
             + (DeckBox.deckheight p + DeckBox.thickness p) * inject_Z i)
            0 (DeckBox.boxdepth p) 90)
       (range2 1 (DeckBox.num p)), Returned tt).
Proof. unfold DeckBox.divider_bottom. apply for_each_do_call. Qed.

Lemma divider_back_and_front_calls (p : DeckBox.t) :
  DeckBox.divider_back_and_front p =
    (map (fun i => fingerHolesAt
            (0.5 * DeckBox.thickness p
             + (DeckBox.deckheight p + DeckBox.thickness p) * inject_Z i)
            0 (DeckBox.cardheight p) 90)
       (range2 1 (DeckBox.num p)), Returned tt).
Proof. unfold DeckBox.divider_back_and_front. apply for_each_do_call. Qed.

Lemma hole_xs_map_holes (f : Z -> Q) (y len : Q) (a : Z) (l : list Z) :
  hole_xs (map (fun i => fingerHolesAt (f i) y len a) l) = map f l.
Proof.
  induction l as [|i l IH]; cbn.
  - reflexivity.
  - f_equal. exact IH.
Qed.

Lemma hole_xs_nth_error (t c : Q) (lo hi : Z) (k : nat) (x : Q) :
  nth_error (map (fun i => 0.5 * t + (c + t) * inject_Z i) (range2 lo hi)) k
    = Some x ->
  (k < Z.to_nat (hi - lo))%nat /\
  x = 0.5 * t + (c + t) * inject_Z (lo + Z.of_nat k).
Proof.
  intros Hx.
  assert (Hk : (k < Z.to_nat (hi - lo))%nat).
  { rewrite <- (range2_length lo hi), <- (length_map (fun i => 0.5 * t + (c + t) * inject_Z i)).
    apply nth_error_Some. congruence. }
  split; [exact Hk|].
  rewrite nth_error_map, range2_nth_error in Hx by exact Hk.
  cbn in Hx. congruence.
Qed.

(** C2. For [num >= 1] and positive [deckheight] and [thickness], both
    [divider_bottom] and [divider_back_and_front] return after exactly
    [num - 1] [fingerHolesAt] calls; the i-th call (i = 1 .. num-1) of
    either is at x = 0.5 * thickness + (deckheight + thickness) * i, y = 0,
    angle 90, with length [boxdepth] for the bottom and [cardheight] for
    back and front; consecutive offsets grow strictly, by exactly
    [deckheight + thickness]; with the default arguments and thickness 3
    the offsets are 69.5 and 137.5. *)
Theorem divider_holes_placement (p : DeckBox.t) :
  (1 <= DeckBox.num p)%Z ->
  0 < DeckBox.deckheight p ->
  0 < DeckBox.thickness p ->
  let pitch := DeckBox.deckheight p + DeckBox.thickness p in
  let bottom := DeckBox.divider_bottom p in
  let walls := DeckBox.divider_back_and_front p in
  let xs := hole_xs (calls bottom) in
  result bottom = Returned tt /\
  result walls = Returned tt /\
  Z.of_nat (List.length (calls bottom)) = (DeckBox.num p - 1)%Z /\
  Z.of_nat (List.length (calls walls)) = (DeckBox.num p - 1)%Z /\
  Z.of_nat (List.length xs) = (DeckBox.num p - 1)%Z /\
  hole_xs (calls walls) = xs /\
  (forall i : Z, (1 <= i <= DeckBox.num p - 1)%Z ->
     exists x : Q,
       x == 0.5 * DeckBox.thickness p + pitch * inject_Z i /\
       nth_error xs (Z.to_nat (i - 1)) = Some x /\
       nth_error (calls bottom) (Z.to_nat (i - 1))
         = Some (fingerHolesAt x 0 (DeckBox.boxdepth p) 90) /\
       nth_error (calls walls) (Z.to_nat (i - 1))
         = Some (fingerHolesAt x 0 (DeckBox.cardheight p) 90)) /\
  (forall (k : nat) (x x' : Q),
     nth_error xs k = Some x -> nth_error xs (S k) = Some x' ->
     x < x' /\ x' - x == pitch) /\
  Forall2 Qeq (hole_xs (calls (DeckBox.divider_bottom scenarioA))) [69.5; 137.5] /\
  Forall2 Qeq (hole_xs (calls (DeckBox.divider_back_and_front scenarioA)))
    [69.5; 137.5].
Proof.
  intros Hnum Hc Ht pitch bottom walls xs.
  subst pitch bottom walls xs.
  rewrite divider_bottom_calls, divider_back_and_front_calls.
  cbn [calls result fst snd].
  rewrite !hole_xs_map_holes, !length_map, range2_length.
  repeat match goal with |- _ /\ _ => split end;
    try reflexivity; try lia.
  - intros i Hi.
    assert (Hk : (Z.to_nat (i - 1) < Z.to_nat (DeckBox.num p - 1))%nat) by lia.
    exists (0.5 * DeckBox.thickness p
            + (DeckBox.deckheight p + DeckBox.thickness p)
              * inject_Z (1 + Z.of_nat (Z.to_nat (i - 1)))).
    rewrite !nth_error_map, !range2_nth_error by exact Hk.
    cbn [option_map].
    replace (1 + Z.of_nat (Z.to_nat (i - 1)))%Z with i by lia.
    repeat split; reflexivity.
  - intros k x x' Hx Hx'.
    apply hole_xs_nth_error in Hx as [_ ->].
    apply hole_xs_nth_error in Hx' as [_ ->].
    replace (1 + Z.of_nat (S k))%Z with ((1 + Z.of_nat k) + 1)%Z by lia.
    rewrite (inject_Z_plus (1 + Z.of_nat k) 1).
    change (inject_Z 1) with 1.
    set (m := inject_Z (1 + Z.of_nat k)).
    assert (Hd : 0.5 * DeckBox.thickness p
                 + (DeckBox.deckheight p + DeckBox.thickness p) * (m + 1)
                 - (0.5 * DeckBox.thickness p
                    + (DeckBox.deckheight p + DeckBox.thickness p) * m)
                 == DeckBox.deckheight p + DeckBox.thickness p) by ring.
    split; [|exact Hd].
    apply Qlt_minus_iff. rewrite Hd.
    apply Qlt_trans with (DeckBox.deckheight p); [exact Hc|].
    rewrite <- (Qplus_0_r (DeckBox.deckheight p)) at 1.
    apply Qplus_lt_r. exact Ht.
  - repeat constructor; reflexivity.
  - repeat constructor; reflexivity.
Qed.

Lemma divider_holes_placement_witness :
  (1 <= DeckBox.num scenarioA)%Z /\
  0 < DeckBox.deckheight scenarioA /\
  0 < DeckBox.thickness scenarioA /\
  Z.of_nat (List.length (calls (DeckBox.divider_bottom scenarioA)))
    = (DeckBox.num scenarioA - 1)%Z /\
  Z.of_nat (List.length (calls (DeckBox.divider_back_and_front scenarioA)))
    = (DeckBox.num scenarioA - 1)%Z.
Proof.
  assert (Hn : (1 <= DeckBox.num scenarioA)%Z) by (cbn; lia).
  assert (Hc : 0 < DeckBox.deckheight scenarioA) by reflexivity.
  assert (Ht : 0 < DeckBox.thickness scenarioA) by reflexivity.
  repeat (split; [assumption|]).
  destruct (divider_holes_placement scenarioA Hn Hc Ht)
    as (_ & _ & Hbottom & Hwalls & _).
  split; assumption.
Defined.

(** ** InsetEdge *)

(** C3. For every edge length and every thickness t, [InsetEdge] makes
    exactly the calls: corner 90, edge t, corner -90, edge length,
    corner -90, edge t, corner 90, and returns; every edge is called with
    [tabs=2]; the angles of its turns add up to zero. *)
Theorem inset_edge_path (s : InsetEdgeSettings.t) (length : Q) :
  let t := InsetEdgeSettings.thickness s in
  InsetEdge.__call__ s length =
    ([corner 90 None; edge t 2; corner (-90) None; edge length 2;
      corner (-90) None; edge t 2; corner 90 None], Returned tt) /\
  edge_lengths (calls (InsetEdge.__call__ s length)) = [t; length; t] /\
  edge_tabs (calls (InsetEdge.__call__ s length)) = [2; 2; 2]%Z /\
  net_turning (calls (InsetEdge.__call__ s length)) = 0%Z.
Proof. repeat split. Qed.

(** The inset path, followed from any pose, ends [length] further along
    the heading it started with, heading the same way. *)
Lemma inset_edge_displacement (s : InsetEdgeSettings.t) (length : Q)
    (p0 : Turtle.pose) :
  exists p1 : Turtle.pose,
    Turtle.run p0 (calls (InsetEdge.__call__ s length)) = Some p1 /\
    Turtle.heading p1 = Turtle.heading p0 /\
    Turtle.px p1 == Turtle.px p0 + length * fst (Turtle.unit (Turtle.heading p0)) /\
    Turtle.py p1 == Turtle.py p0 + length * snd (Turtle.unit (Turtle.heading p0)).
Proof.
  destruct p0 as [x0 y0 []]; eexists; (split; [reflexivity|]);
    cbn; (split; [reflexivity|]); split; ring.
Qed.

(** ** FingerHoleEdge *)

(** C4. For every edge length and wall height h, [FingerHoleEdge] makes
    exactly the calls: edge (length/2 - 10), corner 90, edge depth,
    corner -180 with radius 10, edge depth, corner 90,
    edge (length/2 - 10), with depth = h/5, every edge with [tabs=2]; the
    first and last segment are the same, and so are the two depth
    segments, hence the list of calls reads the same from either end. *)
Theorem finger_hole_edge_path (s : FingerHoleEdgeSettings.t) (length : Q) :
  let depth := FingerHoleEdgeSettings.wallheight s / 5 in
  let path := calls (FingerHoleEdge.__call__ s length) in
  FingerHoleEdge.__call__ s length =
    ([edge (length / 2 - 10) 2; corner 90 None; edge depth 2; corner (-180) (Some 10);
      edge depth 2; corner 90 None; edge (length / 2 - 10) 2], Returned tt) /\
  edge_lengths path = [length / 2 - 10; depth; depth; length / 2 - 10] /\
  edge_tabs path = [2; 2; 2; 2]%Z /\
  nth_error path 0 = nth_error path 6 /\
  nth_error path 2 = nth_error path 4 /\
  rev path = path.
Proof. repeat split. Qed.

(** C10. For every edge length and wall height, the angles of the turns
    of [FingerHoleEdge] add up to zero, and its path, followed from any
    pose, ends exactly [length] further along the heading it started
    with, heading the same way and with no sideways offset.  That
    [length] is made up, call by call, of the first outer segment
    [edge (length/2 - 10)], which advances length/2 - 10, of the turn
    [corner (-180) 10], which advances 2 * 10 across its half circle,
    and of the last outer segment [edge (length/2 - 10)], which advances
    length/2 - 10; the two flanks in between advance nothing along the
    edge. *)
Theorem finger_hole_edge_displacement (s : FingerHoleEdgeSettings.t)
    (length : Q) (p0 : Turtle.pose) :
  let path := calls (FingerHoleEdge.__call__ s length) in
  let fwd := Turtle.unit (Turtle.heading p0) in
  let left := Turtle.unit (Turtle.left_of (Turtle.heading p0)) in
  net_turning path = 0%Z /\
  List.length path = 7%nat /\
  nth_error path 0 = Some (edge (length / 2 - 10) 2) /\
  nth_error path 3 = Some (corner (-180) (Some 10)) /\
  nth_error path 6 = Some (edge (length / 2 - 10) 2) /\
  exists q1 q3 q4 q6 p1 : Turtle.pose,
    Turtle.run p0 (firstn 1 path) = Some q1 /\
    Turtle.run p0 (firstn 3 path) = Some q3 /\
    Turtle.run p0 (firstn 4 path) = Some q4 /\
    Turtle.run p0 (firstn 6 path) = Some q6 /\
    Turtle.run p0 path = Some p1 /\
    along fwd p0 q1 == length / 2 - 10 /\
    along fwd q1 q3 == 0 /\
    along fwd q3 q4 == 2 * 10 /\
    along fwd q4 q6 == 0 /\
    along fwd q6 p1 == length / 2 - 10 /\
    along fwd p0 p1 == length /\
    along left p0 p1 == 0 /\
    Turtle.heading p1 = Turtle.heading p0 /\
    Turtle.px p1 == Turtle.px p0 + length * fst fwd /\
    Turtle.py p1 == Turtle.py p0 + length * snd fwd.
Proof.
  cbv zeta. do 5 (split; [reflexivity|]).
  destruct p0 as [x0 y0 []]; do 5 eexists;
    do 5 (split; [reflexivity|]);
    unfold along; cbn; repeat split; field.
Qed.

(** C5 fails on the source: with edge length 10 (not above 20) the call
    returns normally after its seven calls, the outer segments being
    edge(-5); nothing is raised. *)
Lemma finger_hole_edge_short_returns :
  let s := FingerHoleEdgeSettings.mk 3 92 in
  10 <= 20 /\
  result (FingerHoleEdge.__call__ s 10) = Returned tt /\
  result (FingerHoleEdge.__call__ s 10) <> Raised GeometryUnderflow /\
  List.length (calls (FingerHoleEdge.__call__ s 10)) = 7%nat /\
  Forall2 Qeq (edge_lengths (calls (FingerHoleEdge.__call__ s 10)))
    [-5; 18.4; 18.4; -5].
Proof.
  cbv zeta. split; [discriminate|]. split; [reflexivity|].
  split; [discriminate|]. split; [reflexivity|].
  repeat constructor; reflexivity.
Qed.

(** C5, as the source has it.  [FingerHoleEdge] checks nothing and
    raises nothing itself: for every edge length, above 20 or not, it
    makes its seven calls and returns.  The length it passes for its
    outer segments, length/2 - 10, is positive when length > 20 and zero
    or negative when length <= 20. *)
Theorem finger_hole_edge_unchecked (s : FingerHoleEdgeSettings.t) (length : Q) :
  result (FingerHoleEdge.__call__ s length) = Returned tt /\
  List.length (calls (FingerHoleEdge.__call__ s length)) = 7%nat /\
  nth_error (calls (FingerHoleEdge.__call__ s length)) 0
    = Some (edge (length / 2 - 10) 2) /\
  nth_error (calls (FingerHoleEdge.__call__ s length)) 6
    = Some (edge (length / 2 - 10) 2) /\
  ((20 < length /\ 0 < length / 2 - 10) \/
   (length <= 20 /\ length / 2 - 10 <= 0)).
Proof.
  repeat (split; [reflexivity|]).
  destruct (Qlt_le_dec 20 length) as [H|H]; [left|right]; split; try exact H.
  - apply Qlt_minus_iff in H. apply Qlt_minus_iff.
    setoid_replace (length / 2 - 10 + - 0) with ((length + - (20)) * (1 # 2))
      by field.
    apply Qmult_lt_0_compat; [exact H | reflexivity].
  - apply Qle_minus_iff in H. apply Qle_minus_iff.
    setoid_replace (0 + - (length / 2 - 10)) with ((20 + - length) * (1 # 2))
      by field.
    apply Qmult_le_0_compat; [exact H | discriminate].
Qed.

(** ** The walls of the box *)

Lemma render_calls (p : DeckBox.t) :
  let h := DeckBox.h p in
  let t := DeckBox.thickness p in
  let x := DeckBox.boxwidth p in
  let y := DeckBox.boxdepth p in
  let c := DeckBox.deckheight p in
  DeckBox.render p =
    ([ addPart "a" (InsetEdgeObj (InsetEdgeSettings.mk t));
       addPart "A" (FingerHoleEdgeObj (FingerHoleEdgeSettings.mk t h));
       ctx_save;
       rectangularWall x (y - t * 0.2) "eFee" None "right" (Some "Lid");
       rectangularWall x y "ffff" (Some [cb_divider_bottom]) "right" (Some "Bottom");
       ctx_restore;
       rectangularWall x y "eEEE" None "up only" None;
       rectangularWall x t "feee" None "up" (Some "Lip Front");
       rectangularWall x t "eefe" None "up" (Some "Lip Back");
       ctx_save;
       rectangularWall x (h + t) "FfFf" (Some [cb_divider_back_and_front])
         "right" (Some "Back");
       rectangularWall x (h + t) "FfFf" (Some [cb_divider_back_and_front])
         "right" (Some "Front");
       ctx_restore;
       rectangularWall x (h + t) "EEEE" None "up only" None;
       ctx_save;
       rectangularWall y (h + t) "FFEF" None "right" (Some "Outer Side Left");
       rectangularWall y (h + t) "FFaF" None "right" (Some "Outer Side Right");
       ctx_restore;
       rectangularWall y (h + t) "fFfF" None "up only" None;
       ctx_save;
       rectangularWall y h "Aeee" None "right" (Some "Inner Side Left");
       rectangularWall y h "Aeee" None "right" (Some "Inner Side Right");
       ctx_restore;
       rectangularWall y h "eAee" None "up only" None;
       ctx_save;
       rectangularWall (y - t * 0.2) t "fEeE" None "right" (Some "Lid Lip");
       ctx_restore;
       rectangularWall y (t * 2) "efee" None "up only" None ]
     ++ map (fun _ => rectangularWall h y "fAff" None "right" (Some "Divider"))
          (range (DeckBox.num p - 1))
     ++ flat_map (fun _ =>
          [ rectangularWall c h "eeee" None "right" (Some "Front inlay");
            rectangularWall c h "eeee" None "right" (Some "Back inlay") ])
          (range (DeckBox.num p))
     ++ [ rectangularWall x (y - 2 * t) "eeee" None "right" (Some "Lid topper") ],
     Returned tt)%list.
Proof.
  cbv zeta. unfold DeckBox.render.
  rewrite for_each_do_call.
  rewrite for_each_returns by reflexivity.
  reflexivity.
Qed.

Lemma range_length (n : Z) : List.length (range n) = Z.to_nat n.
Proof. unfold range. rewrite range2_length. f_equal. lia. Qed.

Section ConstantLoops.

Context {A : Type}.
Variable keep : call -> bool.

Lemma filter_map_const (c : call) (l : list A) :
  filter keep (map (fun _ => c) l)
    = if keep c then map (fun _ => c) l else [].
Proof.
  induction l as [|i l IH]; cbn [map filter].
  - now destruct (keep c).
  - rewrite IH. now destruct (keep c).
Qed.

Lemma filter_flat_map_const (cs : list call) (l : list A) :
  filter keep (flat_map (fun _ => cs) l) = flat_map (fun _ => filter keep cs) l.
Proof.
  induction l as [|i l IH]; cbn [flat_map].
  - reflexivity.
  - now rewrite filter_app, IH.
Qed.

Lemma flat_map_const_length (cs : list call) (l : list A) :
  List.length (flat_map (fun _ => cs) l)
    = (List.length l * List.length cs)%nat.
Proof.
  induction l as [|i l IH]; cbn [flat_map List.length].
  - reflexivity.
  - rewrite length_app, IH. lia.
Qed.

Lemma flat_map_const_nil (l : list A) :
  flat_map (fun _ => @nil call) l = [].
Proof. induction l as [|i l IH]; [reflexivity | exact IH]. Qed.

End ConstantLoops.

(** The drawn walls of a run, in order. *)
Lemma render_panels (p : DeckBox.t) :
  let h := DeckBox.h p in
  let t := DeckBox.thickness p in
  let x := DeckBox.boxwidth p in
  let y := DeckBox.boxdepth p in
  let c := DeckBox.deckheight p in
  panels (calls (DeckBox.render p)) =
    ([ rectangularWall x (y - t * 0.2) "eFee" None "right" (Some "Lid");
       rectangularWall x y "ffff" (Some [cb_divider_bottom]) "right" (Some "Bottom");
       rectangularWall x t "feee" None "up" (Some "Lip Front");
       rectangularWall x t "eefe" None "up" (Some "Lip Back");
       rectangularWall x (h + t) "FfFf" (Some [cb_divider_back_and_front])
         "right" (Some "Back");
       rectangularWall x (h + t) "FfFf" (Some [cb_divider_back_and_front])
         "right" (Some "Front");
       rectangularWall y (h + t) "FFEF" None "right" (Some "Outer Side Left");
       rectangularWall y (h + t) "FFaF" None "right" (Some "Outer Side Right");
       rectangularWall y h "Aeee" None "right" (Some "Inner Side Left");
       rectangularWall y h "Aeee" None "right" (Some "Inner Side Right");
       rectangularWall (y - t * 0.2) t "fEeE" None "right" (Some "Lid Lip") ]
     ++ map (fun _ => rectangularWall h y "fAff" None "right" (Some "Divider"))
          (range (DeckBox.num p - 1))
     ++ flat_map (fun _ =>
          [ rectangularWall c h "eeee" None "right" (Some "Front inlay");
            rectangularWall c h "eeee" None "right" (Some "Back inlay") ])
          (range (DeckBox.num p))
     ++ [ rectangularWall x (y - 2 * t) "eeee" None "right" (Some "Lid topper") ])%list.
Proof.
  cbv zeta. rewrite render_calls. cbn [calls fst]. unfold panels.
  rewrite !filter_app, filter_map_const, filter_flat_map_const.
  reflexivity.
Qed.

(** The walls of a run that are not drawn. *)
Lemma render_undrawn (p : DeckBox.t) :
  let h := DeckBox.h p in
  let t := DeckBox.thickness p in
  let x := DeckBox.boxwidth p in
  let y := DeckBox.boxdepth p in
  undrawn (calls (DeckBox.render p)) =
    [ rectangularWall x y "eEEE" None "up only" None;
      rectangularWall x (h + t) "EEEE" None "up only" None;
      rectangularWall y (h + t) "fFfF" None "up only" None;
      rectangularWall y h "eAee" None "up only" None;
      rectangularWall y (t * 2) "efee" None "up only" None ].
Proof.
  cbv zeta. rewrite render_calls. cbn [calls fst]. unfold undrawn.
  rewrite !filter_app, filter_map_const, filter_flat_map_const.
  cbn. rewrite flat_map_const_nil. reflexivity.
Qed.

(** Counting the drawn walls with a given label: filter the three parts
    of the run separately, then add up. *)
Ltac count_labelled p :=
  unfold labelled; rewrite (render_panels p); cbv zeta;
  rewrite !filter_app, filter_map_const, filter_flat_map_const;
  generalize (range_length (DeckBox.num p - 1));
  generalize (range_length (DeckBox.num p));
  generalize (range (DeckBox.num p - 1));
  generalize (range (DeckBox.num p));
  intros inlays dividers Hinlays Hdividers;
  cbn;
  rewrite ?flat_map_const_nil, ?length_app, ?length_map, ?flat_map_const_length;
  cbn [List.length app].

(** C7 fails on the source: with one compartment the run draws 14
    walls, 12 outside the loops and the two inlays, not 13 + 0 + 2; and
    counting the five undrawn placeholders as well gives 19. *)
Lemma render_panel_count_not_13 :
  (1 <= DeckBox.num scenarioB)%Z /\
  Z.of_nat (List.length (panels (calls (DeckBox.render scenarioB)))) = 14%Z /\
  Z.of_nat (List.length (filter is_wall (calls (DeckBox.render scenarioB)))) = 19%Z /\
  Z.of_nat (List.length (panels (calls (DeckBox.render scenarioB))))
    <> (13 + (DeckBox.num scenarioB - 1) + 2 * DeckBox.num scenarioB)%Z /\
  Z.of_nat (List.length (filter is_wall (calls (DeckBox.render scenarioB))))
    <> (13 + (DeckBox.num scenarioB - 1) + 2 * DeckBox.num scenarioB)%Z.
Proof.
  split; [cbn; lia|]. split; [reflexivity|]. split; [reflexivity|].
  split; intros H; vm_compute in H; discriminate H.
Qed.

(** C7, as the source has it.  For every [num >= 1] a run returns after
    drawing exactly 12 walls outside its loops (Lid, Bottom, Lip Front,
    Lip Back, Back, Front, Outer Side Left and Right, Inner Side Left and
    Right, Lid Lip, Lid topper, one of each), [num - 1] walls labelled
    Divider and [num] walls each labelled Front inlay and Back inlay:
    12 + (num - 1) + 2 * num drawn walls in all, besides five undrawn
    placeholders.  With [num = 1] there is no Divider and one Front
    inlay and one Back inlay. *)
Theorem render_panel_count (p : DeckBox.t) :
  (1 <= DeckBox.num p)%Z ->
  let tr := calls (DeckBox.render p) in
  result (DeckBox.render p) = Returned tt /\
  Z.of_nat (List.length (panels tr))
    = (12 + (DeckBox.num p - 1) + 2 * DeckBox.num p)%Z /\
  Forall (fun l => List.length (labelled l tr) = 1%nat) fixed_labels /\
  Z.of_nat (List.length (labelled "Divider" tr)) = (DeckBox.num p - 1)%Z /\
  Z.of_nat (List.length (labelled "Front inlay" tr)) = DeckBox.num p /\
  Z.of_nat (List.length (labelled "Back inlay" tr)) = DeckBox.num p /\
  List.length (undrawn tr) = 5%nat /\
  (DeckBox.num p = 1%Z ->
   labelled "Divider" tr = [] /\
   List.length (labelled "Front inlay" tr) = 1%nat /\
   List.length (labelled "Back inlay" tr) = 1%nat).
Proof.
  intros Hnum tr. subst tr.
  assert (Hdiv : Z.of_nat (List.length (labelled "Divider" (calls (DeckBox.render p))))
                 = (DeckBox.num p - 1)%Z) by (count_labelled p; lia).
  assert (Hfront : Z.of_nat (List.length (labelled "Front inlay" (calls (DeckBox.render p))))
                   = DeckBox.num p) by (count_labelled p; lia).
  assert (Hback : Z.of_nat (List.length (labelled "Back inlay" (calls (DeckBox.render p))))
                  = DeckBox.num p) by (count_labelled p; lia).
  split; [now rewrite render_calls|].
  split.
  { rewrite (render_panels p). cbv zeta.
    rewrite !length_app, length_map, flat_map_const_length, !range_length.
    cbn [List.length]. lia. }
  split; [repeat constructor; count_labelled p; reflexivity|].
  repeat (split; [assumption|]).
  split; [now rewrite render_undrawn|].
  intros H1. rewrite H1 in Hdiv, Hfront, Hback.
  repeat split; try lia.
  apply length_zero_iff_nil. lia.
Qed.

Lemma render_panel_count_witness :
  (1 <= DeckBox.num scenarioB)%Z /\
  Z.of_nat (List.length (panels (calls (DeckBox.render scenarioB)))) = 14%Z /\
  labelled "Divider" (calls (DeckBox.render scenarioB)) = [] /\
  List.length (labelled "Front inlay" (calls (DeckBox.render scenarioB))) = 1%nat /\
  List.length (labelled "Back inlay" (calls (DeckBox.render scenarioB))) = 1%nat.
Proof.
  assert (Hn : (1 <= DeckBox.num scenarioB)%Z) by (cbn; lia).
  split; [exact Hn|].
  destruct (render_panel_count scenarioB Hn) as (_ & Hall & _ & _ & _ & _ & _ & Hone).
  split; [exact Hall|].
  apply Hone. reflexivity.
Defined.

(** ** The edge registry of a run *)

Lemma registered_app (tr1 tr2 : list call) (ch : ascii) :
  registered (tr1 ++ tr2) ch =
    match registered tr2 ch with
    | Some part => Some part
    | None => registered tr1 ch
    end.
Proof.
  induction tr1 as [|c tr1 IH]; cbn [app registered].
  - now destruct (registered tr2 ch).
  - rewrite IH. now destruct (registered tr2 ch).
Qed.

Lemma registered_walls (tr : list call) (ch : ascii) :
  Forall (fun c => is_wall c = true) tr -> registered tr ch = None.
Proof.
  induction 1 as [|c tr Hc _ IH]; cbn [registered].
  - reflexivity.
  - rewrite IH. destruct c; try discriminate Hc; reflexivity.
Qed.

(** After a run, [a] is bound to the [InsetEdge], [A] to the
    [FingerHoleEdge], and no other character is bound by the generator. *)
Lemma render_registered (p : DeckBox.t) (ch : ascii) :
  registered (calls (DeckBox.render p)) ch =
    if Ascii.eqb ch "A" then
      Some (FingerHoleEdgeObj
              (FingerHoleEdgeSettings.mk (DeckBox.thickness p) (DeckBox.h p)))
    else if Ascii.eqb ch "a" then
      Some (InsetEdgeObj (InsetEdgeSettings.mk (DeckBox.thickness p)))
    else None.
Proof.
  rewrite render_calls. cbn [calls fst]. cbv zeta.
  rewrite registered_app, registered_walls.
  - cbn. destruct (Ascii.eqb ch "A"); reflexivity.
  - repeat (apply Forall_app; split);
      [ apply Forall_forall; intros c Hc; apply in_map_iff in Hc as (_ & <- & _);
        reflexivity
      | apply Forall_forall; intros c Hc; apply in_flat_map in Hc as (_ & _ & Hc);
        cbn in Hc; intuition (subst; reflexivity)
      | repeat constructor ].
Qed.

(** ** Dividers *)

(** C8 fails on the source: in a run with the default arguments the
    edge code of the Divider walls is [fAff]; its only custom character
    is [A], bound to the [FingerHoleEdge], and no side uses the
    character [a] of the [InsetEdge]. *)
Lemma divider_edges_not_inset :
  let tr := calls (DeckBox.render scenarioA) in
  (1 <= DeckBox.num scenarioA)%Z /\
  labelled "Divider" tr <> [] /\
  ~ (forall w, In w (labelled "Divider" tr) ->
       exists edges, wall_edges w = Some edges /\ uses_inset tr edges = true) /\
  Forall (fun w => exists edges, wall_edges w = Some edges /\
                     uses_inset tr edges = false) (labelled "Divider" tr).
Proof.
  cbv zeta. split; [cbn; lia|]. split; [vm_compute; discriminate|]. split.
  - intros H.
    destruct (H (rectangularWall (DeckBox.h scenarioA) (DeckBox.boxdepth scenarioA)
                   "fAff" None "right" (Some "Divider")))
      as (edges & Hedges & Huses).
    + vm_compute. left. reflexivity.
    + injection Hedges as <-. vm_compute in Huses. discriminate Huses.
  - vm_compute. repeat constructor; eexists; split; reflexivity.
Qed.

(** C8, as the source has it.  For every [num >= 1] a run draws exactly
    [num - 1] walls labelled Divider, each sized (cardheight, boxdepth)
    with edge code [fAff]; the custom character of that code is [A],
    which the run binds to the [FingerHoleEdge] made for wall height
    [cardheight]; no side of a Divider uses the character bound to the
    [InsetEdge]. *)
Theorem divider_panels (p : DeckBox.t) :
  (1 <= DeckBox.num p)%Z ->
  let tr := calls (DeckBox.render p) in
  let divider := rectangularWall (DeckBox.cardheight p) (DeckBox.boxdepth p)
                   "fAff" None "right" (Some "Divider") in
  Z.of_nat (List.length (labelled "Divider" tr)) = (DeckBox.num p - 1)%Z /\
  Forall (eq divider) (labelled "Divider" tr) /\
  wall_dims divider = Some (DeckBox.cardheight p, DeckBox.boxdepth p) /\
  registered tr "A" =
    Some (FingerHoleEdgeObj
            (FingerHoleEdgeSettings.mk (DeckBox.thickness p) (DeckBox.cardheight p))) /\
  registered tr "a" = Some (InsetEdgeObj (InsetEdgeSettings.mk (DeckBox.thickness p))) /\
  uses_finger_hole tr "fAff" = true /\
  uses_inset tr "fAff" = false.
Proof.
  intros Hnum tr divider. subst tr divider.
  split; [count_labelled p; lia|].
  split.
  { unfold labelled. rewrite (render_panels p). cbv zeta.
    rewrite !filter_app, filter_map_const, filter_flat_map_const.
    generalize (range (DeckBox.num p - 1)), (range (DeckBox.num p)).
    intros dividers inlays. cbn. rewrite flat_map_const_nil, app_nil_r.
    apply Forall_forall. intros w Hw.
    apply in_map_iff in Hw as (_ & <- & _). reflexivity. }
  split; [reflexivity|].
  unfold uses_finger_hole, uses_inset. cbn [list_ascii_of_string existsb].
  rewrite !render_registered. repeat split.
Qed.

Lemma divider_panels_witness :
  (1 <= DeckBox.num scenarioA)%Z /\
  Z.of_nat (List.length (labelled "Divider" (calls (DeckBox.render scenarioA))))
    = (DeckBox.num scenarioA - 1)%Z /\
  uses_inset (calls (DeckBox.render scenarioA)) "fAff" = false.
Proof.
  assert (Hn : (1 <= DeckBox.num scenarioA)%Z) by (cbn; lia).
  split; [exact Hn|].
  destruct (divider_panels scenarioA Hn) as (Hcount & _ & _ & _ & _ & _ & Hinset).
  split; assumption.
Defined.

(** ** Lid lip *)

(** C9 fails on the source: in a run with the default arguments the
    wall labelled Lid Lip is 73.4 by 3, one thickness high, not
    2 * thickness = 6. *)
Lemma lid_lip_not_double_thickness :
  let tr := calls (DeckBox.render scenarioA) in
  (forall w a b, In w (labelled "Lid Lip" tr) -> wall_dims w = Some (a, b) ->
     a == 73.4 /\ b == 3) /\
  ~ (exists w a b, In w (labelled "Lid Lip" tr) /\ wall_dims w = Some (a, b) /\
       a == DeckBox.boxdepth scenarioA - 0.2 * DeckBox.thickness scenarioA /\
       b == 2 * DeckBox.thickness scenarioA).
Proof.
  cbv zeta.
  assert (Hw : forall w a b,
             In w (labelled "Lid Lip" (calls (DeckBox.render scenarioA))) ->
             wall_dims w = Some (a, b) -> a == 73.4 /\ b == 3).
  { intros w a b Hin Hd. vm_compute in Hin.
    destruct Hin as [<- | []]. injection Hd as <- <-. split; reflexivity. }
  split; [exact Hw|].
  intros (w & a & b & Hin & Hd & _ & Hb).
  destruct (Hw w a b Hin Hd) as [_ Hb']. rewrite Hb' in Hb. discriminate Hb.
Qed.

(** C9, as the source has it.  In every run exactly one wall labelled
    Lid Lip is drawn; it is (boxdepth - 0.2 * thickness) by thickness.
    The undrawn placeholder that follows it, which only reserves room, is
    boxdepth by 2 * thickness. *)
Theorem lid_lip_dimensions (p : DeckBox.t) :
  let tr := calls (DeckBox.render p) in
  exists a b : Q,
    labelled "Lid Lip" tr = [rectangularWall a b "fEeE" None "right" (Some "Lid Lip")] /\
    a == DeckBox.boxdepth p - 0.2 * DeckBox.thickness p /\
    b == DeckBox.thickness p /\
    exists b' : Q,
      nth_error (undrawn tr) 4
        = Some (rectangularWall (DeckBox.boxdepth p) b' "efee" None "up only" None) /\
      b' == 2 * DeckBox.thickness p.
Proof.
  cbv zeta.
  exists (DeckBox.boxdepth p - DeckBox.thickness p * 0.2), (DeckBox.thickness p).
  split.
  { count_labelled p. reflexivity. }
  split; [ring|]. split; [reflexivity|].
  exists (DeckBox.thickness p * 2).
  rewrite render_undrawn. split; [reflexivity | ring].
Qed.

(** ** Validation *)

(** C6 fails on the source: with [num = 0] the run returns normally,
    raises no error, and draws the 12 walls outside the loops, the Lid
    first. *)
Lemma render_invalid_num_returns :
  let p := DeckBox.mk 65 68 92 0 3 in
  (DeckBox.num p < 1)%Z /\
  result (DeckBox.render p) = Returned tt /\
  result (DeckBox.render p) <> Raised InvalidParameter /\
  List.length (panels (calls (DeckBox.render p))) = 12%nat /\
  option_map wall_label (nth_error (panels (calls (DeckBox.render p))) 0)
    = Some (Some "Lid").
Proof.
  cbv zeta. split; [cbn; lia|]. split; [reflexivity|].
  split; [discriminate|]. split; reflexivity.
Qed.

(** C6, as the source has it.  The generator validates nothing and
    raises nothing itself: for every input, whether or not thickness,
    deckheight, cardwidth, cardheight are positive and [num >= 1], a run
    binds the two edge characters and goes on to emit its walls, the Lid
    first and at least the 12 walls outside the loops, and returns. *)
Theorem render_unvalidated (p : DeckBox.t) :
  let tr := calls (DeckBox.render p) in
  result (DeckBox.render p) = Returned tt /\
  result (DeckBox.render p) <> Raised InvalidParameter /\
  nth_error (panels tr) 0
    = Some (rectangularWall (DeckBox.boxwidth p)
              (DeckBox.boxdepth p - DeckBox.thickness p * 0.2)
              "eFee" None "right" (Some "Lid")) /\
  (12 <= List.length (panels tr))%nat /\
  Forall (fun l => List.length (labelled l tr) = 1%nat) fixed_labels /\
  firstn 2 tr =
    [ addPart "a" (InsetEdgeObj (InsetEdgeSettings.mk (DeckBox.thickness p)));
      addPart "A" (FingerHoleEdgeObj
                     (FingerHoleEdgeSettings.mk (DeckBox.thickness p)
                        (DeckBox.cardheight p))) ].
Proof.
  cbv zeta. rewrite (render_panels p). cbv zeta.
  split; [now rewrite render_calls|].
  split; [rewrite render_calls; discriminate|].
  split; [reflexivity|].
  split; [rewrite !length_app; cbn [List.length]; lia|].
  split.
  - repeat constructor; count_labelled p; reflexivity.
  - rewrite render_calls. reflexivity.
Qed.

(** * Further properties of the generator *)

(** ** Where the divider holes lie *)

Lemma range2_In (lo hi i : Z) :
  In i (range2 lo hi) <-> (lo <= i < hi)%Z.
Proof.
  unfold range2. rewrite in_map_iff. split.
  - intros (k & <- & Hk). apply in_seq in Hk. lia.
  - intros Hi. exists (Z.to_nat (i - lo)). split; [lia|].
    apply in_seq. lia.
Qed.

(** The x-offsets of either divider routine, as a list over [range]. *)
Lemma divider_hole_xs (p : DeckBox.t) :
  let xs := map (fun i => 0.5 * DeckBox.thickness p
                          + (DeckBox.deckheight p + DeckBox.thickness p) * inject_Z i)
              (range2 1 (DeckBox.num p)) in
  hole_xs (calls (DeckBox.divider_bottom p)) = xs /\
  hole_xs (calls (DeckBox.divider_back_and_front p)) = xs.
Proof.
  cbv zeta. rewrite divider_bottom_calls, divider_back_and_front_calls.
  cbn [calls fst]. now rewrite !hole_xs_map_holes.
Qed.

Lemma divider_hole_xs_nth (p : DeckBox.t) (i : Z) :
  (1 <= i <= DeckBox.num p - 1)%Z ->
  nth_error (hole_xs (calls (DeckBox.divider_bottom p))) (Z.to_nat (i - 1))
    = Some (0.5 * DeckBox.thickness p
            + (DeckBox.deckheight p + DeckBox.thickness p) * inject_Z i).
Proof.
  intros Hi. destruct (divider_hole_xs p) as [-> _].
  rewrite nth_error_map, range2_nth_error by lia.
  cbn [option_map].
  replace (1 + Z.of_nat (Z.to_nat (i - 1)))%Z with i by lia. reflexivity.
Qed.

Lemma divider_hole_xs_In (p : DeckBox.t) (x : Q) :
  In x (hole_xs (calls (DeckBox.divider_bottom p))) ->
  exists i : Z,
    (1 <= i <= DeckBox.num p - 1)%Z /\
    x = 0.5 * DeckBox.thickness p
        + (DeckBox.deckheight p + DeckBox.thickness p) * inject_Z i.
Proof.
  destruct (divider_hole_xs p) as [-> _]. intros Hx.
  apply in_map_iff in Hx as (i & <- & Hi). apply range2_In in Hi.
  exists i. split; [lia | reflexivity].
Qed.

(** X1. The holes are placed mirror-symmetrically in the width of the
    box: the i-th offset from the left and the i-th from the right add up
    to [boxwidth], for both divider routines. *)
Theorem divider_holes_mirror_symmetric (p : DeckBox.t) (i : Z) :
  (1 <= i <= DeckBox.num p - 1)%Z ->
  hole_xs (calls (DeckBox.divider_back_and_front p))
    = hole_xs (calls (DeckBox.divider_bottom p)) /\
  exists x x' : Q,
    nth_error (hole_xs (calls (DeckBox.divider_bottom p))) (Z.to_nat (i - 1))
      = Some x /\
    nth_error (hole_xs (calls (DeckBox.divider_bottom p)))
      (Z.to_nat (DeckBox.num p - i - 1)) = Some x' /\
    x + x' == DeckBox.boxwidth p.
Proof.
  intros Hi. split.
  { destruct (divider_hole_xs p) as [-> ->]. reflexivity. }
  eexists. eexists.
  split; [apply divider_hole_xs_nth; lia|].
  split.
  { replace (DeckBox.num p - i - 1)%Z with ((DeckBox.num p - i) - 1)%Z by lia.
    apply divider_hole_xs_nth. lia. }
  unfold DeckBox.boxwidth.
  replace (DeckBox.num p) with (i + (DeckBox.num p - i))%Z at 2 by lia.
  rewrite inject_Z_plus. ring.
Qed.

Lemma divider_holes_mirror_symmetric_witness :
  (1 <= 1 <= DeckBox.num scenarioA - 1)%Z /\
  exists x x' : Q,
    nth_error (hole_xs (calls (DeckBox.divider_bottom scenarioA))) 0 = Some x /\
    nth_error (hole_xs (calls (DeckBox.divider_bottom scenarioA))) 1 = Some x' /\
    x + x' == DeckBox.boxwidth scenarioA.
Proof.
  assert (Hi : (1 <= 1 <= DeckBox.num scenarioA - 1)%Z) by (cbn; lia).
  split; [exact Hi|].
  exact (proj2 (divider_holes_mirror_symmetric scenarioA 1 Hi)).
Defined.

(** X2. With positive [deckheight] and [thickness] every hole lies
    inside the width of the box, at least [deckheight + 1.5 * thickness]
    from either end: a divider of one thickness centred on a hole leaves
    a full [deckheight] and one more thickness on either side. *)
Theorem divider_holes_within_box (p : DeckBox.t) (x : Q) :
  0 < DeckBox.deckheight p ->
  0 < DeckBox.thickness p ->
  In x (hole_xs (calls (DeckBox.divider_bottom p))) \/
  In x (hole_xs (calls (DeckBox.divider_back_and_front p))) ->
  DeckBox.deckheight p + 1.5 * DeckBox.thickness p <= x /\
  x <= DeckBox.boxwidth p - (DeckBox.deckheight p + 1.5 * DeckBox.thickness p) /\
  0 < x /\ x < DeckBox.boxwidth p.
Proof.
  intros Hc Ht Hx.
  assert (Hx' : In x (hole_xs (calls (DeckBox.divider_bottom p)))).
  { destruct Hx as [Hx|Hx]; [exact Hx|].
    destruct (divider_hole_xs p) as [-> E]. rewrite E in Hx. exact Hx. }
  clear Hx. apply divider_hole_xs_In in Hx' as (i & Hi & ->).
  set (c := DeckBox.deckheight p) in *. set (t := DeckBox.thickness p) in *.
  assert (Hlo : 0 <= (c + t) * (inject_Z i - 1)).
  { apply Qmult_le_0_compat; [lra|].
    change 1 with (inject_Z 1). unfold Qminus. rewrite <- inject_Z_opp, <- inject_Z_plus.
    change 0 with (inject_Z 0). rewrite <- Zle_Qle. lia. }
  assert (Hhi : 0 <= (c + t) * (inject_Z (DeckBox.num p) - inject_Z i - 1)).
  { apply Qmult_le_0_compat; [lra|].
    change 1 with (inject_Z 1). unfold Qminus.
    rewrite <- !inject_Z_opp, <- !inject_Z_plus.
    change 0 with (inject_Z 0). rewrite <- Zle_Qle. lia. }
  unfold DeckBox.boxwidth. fold c t.
  set (I := inject_Z i) in *. set (N := inject_Z (DeckBox.num p)) in *.
  assert (E1 : (c + t) * (I - 1) == (c + t) * I - c - t) by ring.
  assert (E2 : (c + t) * (N - I - 1) == N * (c + t) - (c + t) * I - c - t) by ring.
  rewrite E1 in Hlo. rewrite E2 in Hhi.
  set (a := (c + t) * I) in *. set (b := N * (c + t)) in *.
  repeat split; lra.
Qed.

Lemma divider_holes_within_box_witness :
  0 < DeckBox.deckheight scenarioA /\
  0 < DeckBox.thickness scenarioA /\
  0 < 0.5 * 3 + (65 + 3) * inject_Z 1 /\
  0.5 * 3 + (65 + 3) * inject_Z 1 < DeckBox.boxwidth scenarioA.
Proof.
  assert (Hc : 0 < DeckBox.deckheight scenarioA) by reflexivity.
  assert (Ht : 0 < DeckBox.thickness scenarioA) by reflexivity.
  split; [exact Hc|]. split; [exact Ht|].
  apply (divider_holes_within_box scenarioA _ Hc Ht).
  left. left. reflexivity.
Defined.

(** X3. For every [num], also 1, 0 and negative, both divider routines
    return after max(0, num - 1) calls, all of them [fingerHolesAt] at
    y = 0 and angle 90: with a single compartment, or none, nothing is
    cut. *)
Theorem divider_hole_count (p : DeckBox.t) :
  let is_hole := fun c =>
    match c with
    | fingerHolesAt _ y _ angle => Qeq_bool y 0 && (angle =? 90)%Z
    | _ => false
    end in
  result (DeckBox.divider_bottom p) = Returned tt /\
  result (DeckBox.divider_back_and_front p) = Returned tt /\
  Z.of_nat (List.length (calls (DeckBox.divider_bottom p)))
    = Z.max 0 (DeckBox.num p - 1) /\
  Z.of_nat (List.length (calls (DeckBox.divider_back_and_front p)))
    = Z.max 0 (DeckBox.num p - 1) /\
  forallb is_hole (calls (DeckBox.divider_bottom p)) = true /\
  forallb is_hole (calls (DeckBox.divider_back_and_front p)) = true.
Proof.
  cbv zeta. rewrite divider_bottom_calls, divider_back_and_front_calls.
  cbn [calls result fst snd]. rewrite !length_map, range2_length.
  repeat split; try lia;
    apply forallb_forall; intros c Hc;
    apply in_map_iff in Hc as (i & <- & _); reflexivity.
Qed.

(** ** How the run grows with the number of compartments *)

Lemma range2_snoc (lo hi : Z) :
  (lo <= hi)%Z -> range2 lo (hi + 1) = (range2 lo hi ++ [hi])%list.
Proof.
  intros H. unfold range2.
  replace (Z.to_nat (hi + 1 - lo)) with (S (Z.to_nat (hi - lo))) by lia.
  rewrite seq_S, map_app. cbn [map Nat.add]. do 3 f_equal. lia.
Qed.

(** X5. One compartment more, everything else the same, with
    [num >= 1]: the box is wider by exactly [deckheight + thickness], the
    holes there were stay where they are, one hole is added after them,
    half a thickness short of the old width, and the run draws three
    more walls. *)
Theorem one_more_compartment (p : DeckBox.t) :
  (1 <= DeckBox.num p)%Z ->
  let p' := DeckBox.mk (DeckBox.deckheight p) (DeckBox.cardwidth p)
              (DeckBox.cardheight p) (DeckBox.num p + 1) (DeckBox.thickness p) in
  DeckBox.boxwidth p'
    == DeckBox.boxwidth p + (DeckBox.deckheight p + DeckBox.thickness p) /\
  DeckBox.boxdepth p' = DeckBox.boxdepth p /\
  (exists x : Q,
     hole_xs (calls (DeckBox.divider_bottom p'))
       = (hole_xs (calls (DeckBox.divider_bottom p)) ++ [x])%list /\
     hole_xs (calls (DeckBox.divider_back_and_front p'))
       = (hole_xs (calls (DeckBox.divider_back_and_front p)) ++ [x])%list /\
     x == DeckBox.boxwidth p - 0.5 * DeckBox.thickness p) /\
  List.length (panels (calls (DeckBox.render p')))
    = (List.length (panels (calls (DeckBox.render p))) + 3)%nat.
Proof.
  intros Hnum p'. split.
  { unfold DeckBox.boxwidth. subst p'. cbn [DeckBox.num DeckBox.deckheight DeckBox.thickness].
    rewrite inject_Z_plus. change (inject_Z 1) with 1. ring. }
  split; [reflexivity|].
  split.
  { exists (0.5 * DeckBox.thickness p
            + (DeckBox.deckheight p + DeckBox.thickness p) * inject_Z (DeckBox.num p)).
    destruct (divider_hole_xs p) as [-> ->].
    destruct (divider_hole_xs p') as [-> ->].
    subst p'. cbn [DeckBox.num DeckBox.deckheight DeckBox.thickness].
    rewrite range2_snoc by exact Hnum. rewrite map_app. cbn [map].
    repeat split. unfold DeckBox.boxwidth. ring. }
  rewrite (render_panels p), (render_panels p'). cbv zeta.
  rewrite !length_app, !length_map, !flat_map_const_length, !range_length.
  subst p'. cbn [List.length DeckBox.num]. lia.
Qed.

Lemma one_more_compartment_witness :
  (1 <= DeckBox.num scenarioB)%Z /\
  List.length (panels (calls (DeckBox.render (DeckBox.mk 65 68 92 (1 + 1) 3))))
    = (List.length (panels (calls (DeckBox.render scenarioB))) + 3)%nat.
Proof.
  assert (Hn : (1 <= DeckBox.num scenarioB)%Z) by (cbn; lia).
  split; [exact Hn|].
  exact (proj2 (proj2 (proj2 (one_more_compartment scenarioB Hn)))).
Defined.

(** ** Saved contexts and layout *)

Section LoopWalls.

Context {A B : Type}.
Variables (f : call) (g : list call) (last : call).
Variables (l1 : list A) (l2 : list B).
Hypothesis f_wall : is_wall f = true.
Hypothesis g_walls : forallb is_wall g = true.
Hypothesis last_wall : is_wall last = true.

Lemma loops_are_walls :
  Forall (fun c => is_wall c = true)
    (map (fun _ => f) l1 ++ flat_map (fun _ => g) l2 ++ [last])%list.
Proof.
  repeat (apply Forall_app; split).
  - apply Forall_forall. intros c Hc.
    apply in_map_iff in Hc as (_ & <- & _). exact f_wall.
  - apply Forall_forall. intros c Hc.
    apply in_flat_map in Hc as (_ & _ & Hc).
    rewrite forallb_forall in g_walls. now apply g_walls.
  - repeat constructor. exact last_wall.
Qed.

End LoopWalls.

Lemma well_grouped_walls (tr : list call) :
  Forall (fun c => is_wall c = true) tr -> well_grouped false tr = true.
Proof.
  induction 1 as [|c tr Hc _ IH]; [reflexivity|].
  destruct c; try discriminate Hc. exact IH.
Qed.

Lemma in_groups_walls (tr : list call) :
  Forall (fun c => is_wall c = true) tr -> in_groups false tr = [].
Proof.
  induction 1 as [|c tr Hc _ IH]; [reflexivity|].
  destruct c; try discriminate Hc. exact IH.
Qed.

Lemma after_restore_walls (tr : list call) :
  Forall (fun c => is_wall c = true) tr -> after_restore tr = [].
Proof.
  induction 1 as [|c tr Hc _ IH]; [reflexivity|].
  destruct c; try discriminate Hc. exact IH.
Qed.

(** X6. In every run the saved contexts pair up and never nest.
    Exactly nine walls are emitted while a context is open (Lid, Bottom,
    Back, Front, the outer and the inner sides, Lid Lip), every one drawn
    and moving right; each of the five restores is followed at once by an
    undrawn wall moving [up only].  The walls of both loops, whatever
    [num] is, are emitted with no context open. *)
Theorem render_saved_contexts (p : DeckBox.t) :
  let tr := calls (DeckBox.render p) in
  well_grouped false tr = true /\
  map wall_label (in_groups false tr) =
    [ Some "Lid"; Some "Bottom"; Some "Back"; Some "Front";
      Some "Outer Side Left"; Some "Outer Side Right";
      Some "Inner Side Left"; Some "Inner Side Right"; Some "Lid Lip" ] /\
  forallb (fun c => drawn c && match wall_move c with
                               | Some move => String.eqb move "right"
                               | None => false
                               end) (in_groups false tr) = true /\
  List.length (after_restore tr) = 5%nat /\
  forallb (fun o => match o with
                    | Some c => is_wall c && negb (drawn c)
                                && match wall_move c with
                                   | Some move => String.eqb move "up only"
                                   | None => false
                                   end
                    | None => false
                    end) (after_restore tr) = true.
Proof.
  cbv zeta. rewrite render_calls. cbn [calls fst]. cbv zeta.
  match goal with
  | |- context [(_ ++ ?tail)%list] =>
      assert (Htail : Forall (fun c => is_wall c = true) tail)
        by (apply loops_are_walls; reflexivity);
      pose proof (well_grouped_walls _ Htail) as Hg;
      pose proof (in_groups_walls _ Htail) as Hi;
      pose proof (after_restore_walls _ Htail) as Ha;
      generalize dependent tail
  end.
  intros tail _ Hg Hi Ha.
  cbn [app well_grouped in_groups after_restore negb andb hd_error].
  rewrite Hg, Hi, Ha. repeat split.
Qed.

(** ** Edge codes *)

Lemma registered_no_addPart (tr : list call) (ch : ascii) :
  forallb (fun c => negb (is_addPart c)) tr = true -> registered tr ch = None.
Proof.
  induction tr as [|c tr IH]; cbn [forallb registered]; [reflexivity|].
  intros H. apply andb_prop in H as [Hc Htr]. rewrite (IH Htr).
  destruct c; try discriminate Hc; reflexivity.
Qed.

Section LoopChecks.

Context {A B : Type}.
Variable check : call -> bool.
Variables (f : call) (g : list call) (last : call).
Variables (l1 : list A) (l2 : list B).
Hypothesis f_ok : check f = true.
Hypothesis g_ok : forallb check g = true.
Hypothesis last_ok : check last = true.

Lemma loops_forallb :
  forallb check (map (fun _ => f) l1 ++ flat_map (fun _ => g) l2 ++ [last])%list
    = true.
Proof.
  rewrite !forallb_app.
  apply andb_true_intro; split; [|apply andb_true_intro; split].
  - apply forallb_forall. intros c Hc.
    apply in_map_iff in Hc as (_ & <- & _). exact f_ok.
  - apply forallb_forall. intros c Hc.
    apply in_flat_map in Hc as (_ & _ & Hc).
    rewrite forallb_forall in g_ok. now apply g_ok.
  - cbn. now rewrite last_ok.
Qed.

End LoopChecks.

(** A run starts by binding [a] and [A]; nothing after that binds a
    character, and every wall after that has a well-formed edge code. *)
Lemma render_calls_shape (p : DeckBox.t) :
  exists rest : list call,
    calls (DeckBox.render p) =
      addPart "a" (InsetEdgeObj (InsetEdgeSettings.mk (DeckBox.thickness p)))
      :: addPart "A" (FingerHoleEdgeObj
                        (FingerHoleEdgeSettings.mk (DeckBox.thickness p) (DeckBox.h p)))
      :: rest /\
    forallb (fun c => negb (is_addPart c)) rest = true /\
    forallb well_formed_edges rest = true.
Proof.
  rewrite render_calls. cbn [calls fst]. cbv zeta.
  match goal with
  | |- context [(?fixed ++ ?loops)%list] => exists (tl (tl fixed) ++ loops)%list
  end.
  split; [reflexivity|].
  split.
  - rewrite forallb_app. apply andb_true_intro. split; [reflexivity|].
    apply loops_forallb; reflexivity.
  - rewrite forallb_app. apply andb_true_intro. split; [reflexivity|].
    apply loops_forallb; reflexivity.
Qed.

(** X7. Whatever the parameters, the two [addPart] calls are the first
    two calls of a run and the only ones; every wall of the run has an
    edge code of exactly four characters out of e, E, f, F, a, A; and
    wherever a wall names [a] or [A], that character has been bound by
    the calls made before the wall. *)
Theorem render_edges_bound_before_use (p : DeckBox.t)
    (pre post : list call) (w : call) :
  calls (DeckBox.render p) = (pre ++ w :: post)%list ->
  is_wall w = true ->
  firstn 2 (calls (DeckBox.render p)) =
    [ addPart "a" (InsetEdgeObj (InsetEdgeSettings.mk (DeckBox.thickness p)));
      addPart "A" (FingerHoleEdgeObj
                     (FingerHoleEdgeSettings.mk (DeckBox.thickness p)
                        (DeckBox.cardheight p))) ] /\
  List.length (filter is_addPart (calls (DeckBox.render p))) = 2%nat /\
  (2 <= List.length pre)%nat /\
  exists edges : string,
    wall_edges w = Some edges /\
    String.length edges = 4%nat /\
    forallb in_alphabet (list_ascii_of_string edges) = true /\
    forall ch : ascii,
      In ch (list_ascii_of_string edges) -> is_custom ch = true ->
      exists part : EdgePart, registered pre ch = Some part.
Proof.
  intros Hsplit Hw.
  destruct (render_calls_shape p) as (rest & Hshape & Hno & Hok).
  rewrite Hshape in Hsplit |- *.
  split; [reflexivity|].
  split.
  { cbn [filter is_addPart List.length]. f_equal. f_equal.
    clear - Hno. induction rest as [|c rest IH]; [reflexivity|].
    cbn [forallb] in Hno. apply andb_prop in Hno as [Hc Hrest].
    cbn [filter]. destruct (is_addPart c); [discriminate Hc|]. now apply IH. }
  destruct pre as [|c1 [|c2 pre']].
  { cbn in Hsplit. injection Hsplit as <- _. discriminate Hw. }
  { cbn in Hsplit. injection Hsplit as _ <- _. discriminate Hw. }
  cbn [app] in Hsplit. injection Hsplit as <- <- Hrest.
  split; [cbn [List.length]; lia|].
  subst rest. rewrite forallb_app in Hno, Hok.
  apply andb_prop in Hno as [Hno _].
  apply andb_prop in Hok as [_ Hok].
  cbn [forallb] in Hok. apply andb_prop in Hok as [Hok _].
  unfold well_formed_edges in Hok.
  destruct w; try discriminate Hw. cbn [wall_edges] in Hok |- *.
  apply andb_prop in Hok as [Hlen Halpha].
  exists edges. split; [reflexivity|].
  split; [now apply Nat.eqb_eq|].
  split; [exact Halpha|].
  intros ch _ Hch. cbn [registered].
  rewrite (registered_no_addPart pre' ch Hno).
  unfold is_custom in Hch. apply orb_prop in Hch as [Hch|Hch].
  - destruct (Ascii.eqb ch "A"); [eexists; reflexivity|].
    rewrite Hch. eexists; reflexivity.
  - rewrite Hch. eexists; reflexivity.
Qed.

Lemma render_edges_bound_before_use_witness :
  let tr := calls (DeckBox.render scenarioA) in
  let w := rectangularWall (DeckBox.boxdepth scenarioA)
             (DeckBox.h scenarioA + DeckBox.thickness scenarioA)
             "FFaF" None "right" (Some "Outer Side Right") in
  tr = (firstn 16 tr ++ w :: skipn 17 tr)%list /\
  is_wall w = true /\
  exists part : EdgePart, registered (firstn 16 tr) "a" = Some part.
Proof.
  cbv zeta.
  assert (Hsplit : calls (DeckBox.render scenarioA)
                   = (firstn 16 (calls (DeckBox.render scenarioA))
                      ++ rectangularWall (DeckBox.boxdepth scenarioA)
                           (DeckBox.h scenarioA + DeckBox.thickness scenarioA)
                           "FFaF" None "right" (Some "Outer Side Right")
                      :: skipn 17 (calls (DeckBox.render scenarioA)))%list)
    by reflexivity.
  split; [exact Hsplit|]. split; [reflexivity|].
  destruct (render_edges_bound_before_use scenarioA _ _ _ Hsplit eq_refl)
    as (_ & _ & _ & edges & Hedges & _ & _ & Hbound).
  injection Hedges as <-.
  apply Hbound; [right; right; left; reflexivity | reflexivity].
Defined.

(** ** Callbacks *)

Lemma render_callback_walls (p : DeckBox.t) :
  filter has_callbacks (calls (DeckBox.render p)) =
    [ rectangularWall (DeckBox.boxwidth p) (DeckBox.boxdepth p) "ffff"
        (Some [cb_divider_bottom]) "right" (Some "Bottom");
      rectangularWall (DeckBox.boxwidth p) (DeckBox.h p + DeckBox.thickness p) "FfFf"
        (Some [cb_divider_back_and_front]) "right" (Some "Back");
      rectangularWall (DeckBox.boxwidth p) (DeckBox.h p + DeckBox.thickness p) "FfFf"
        (Some [cb_divider_back_and_front]) "right" (Some "Front") ].
Proof.
  rewrite render_calls. cbn [calls fst]. cbv zeta.
  rewrite !filter_app, filter_map_const, filter_flat_map_const.
  cbn. now rewrite flat_map_const_nil.
Qed.

Lemma hole_span (c t : Q) (i n : Z) :
  0 < c -> 0 < t -> (1 <= i < n)%Z ->
  0 < 0.5 * t + (c + t) * inject_Z i - 0.5 * t /\
  0.5 * t + (c + t) * inject_Z i + 0.5 * t < inject_Z n * (c + t) + t.
Proof.
  intros Hc Ht Hi.
  assert (Hlo : 0 < (c + t) * inject_Z i).
  { apply Qmult_lt_0_compat; [lra|].
    change 0 with (inject_Z 0). rewrite <- Zlt_Qlt. lia. }
  assert (Hhi : 0 < (c + t) * (inject_Z n - inject_Z i)).
  { apply Qmult_lt_0_compat; [lra|].
    unfold Qminus. rewrite <- inject_Z_opp, <- inject_Z_plus.
    change 0 with (inject_Z 0). rewrite <- Zlt_Qlt. lia. }
  assert (E : (c + t) * (inject_Z n - inject_Z i)
              == inject_Z n * (c + t) - (c + t) * inject_Z i) by ring.
  rewrite E in Hhi.
  set (a := (c + t) * inject_Z i) in *. set (b := inject_Z n * (c + t)) in *.
  split; lra.
Qed.

(** X8. Only three walls of a run carry a callback: the Bottom carries
    [divider_bottom], the Back and the Front carry
    [divider_back_and_front].  With positive dimensions, every hole such
    a callback cuts lies on the wall it is attached to: a slot one
    thickness wide around its offset stays strictly inside the width of
    the wall, and its length is positive and no more than the height of
    the wall. *)
Theorem divider_holes_fit_walls (p : DeckBox.t) :
  0 < DeckBox.deckheight p ->
  0 < DeckBox.cardwidth p ->
  0 < DeckBox.cardheight p ->
  0 < DeckBox.thickness p ->
  let tr := calls (DeckBox.render p) in
  map (fun w => (wall_label w, wall_callbacks w)) (filter has_callbacks tr) =
    [ (Some "Bottom", [cb_divider_bottom]);
      (Some "Back", [cb_divider_back_and_front]);
      (Some "Front", [cb_divider_back_and_front]) ] /\
  forall (w : call) (cb : Callback) (hole : call),
    In w tr -> In cb (wall_callbacks w) -> In hole (calls (invoke p cb)) ->
    exists X Y x len : Q,
      wall_dims w = Some (X, Y) /\
      drawn w = true /\
      hole = fingerHolesAt x 0 len 90 /\
      0 < x - 0.5 * DeckBox.thickness p /\
      x + 0.5 * DeckBox.thickness p < X /\
      0 < len /\ len <= Y.
Proof.
  intros Hc Hcw Hch Ht tr. subst tr. split.
  { rewrite render_callback_walls. reflexivity. }
  intros w cb hole Hw Hcb Hhole.
  assert (Hin : In w (filter has_callbacks (calls (DeckBox.render p)))).
  { apply filter_In. split; [exact Hw|].
    unfold has_callbacks. destruct (wall_callbacks w); [destruct Hcb | reflexivity]. }
  rewrite render_callback_walls in Hin.
  destruct Hin as [<- | [<- | [<- | []]]];
    cbn [wall_callbacks In] in Hcb; destruct Hcb as [<- | []];
    cbn [invoke] in Hhole.
  - rewrite divider_bottom_calls in Hhole. cbn [calls fst] in Hhole.
    apply in_map_iff in Hhole as (i & <- & Hi). apply range2_In in Hi.
    destruct (hole_span _ _ i (DeckBox.num p) Hc Ht Hi) as [Hlo Hhi].
    do 4 eexists. split; [reflexivity|]. split; [reflexivity|].
    split; [reflexivity|]. split; [exact Hlo|]. split; [exact Hhi|].
    unfold DeckBox.boxdepth. split; lra.
  - rewrite divider_back_and_front_calls in Hhole. cbn [calls fst] in Hhole.
    apply in_map_iff in Hhole as (i & <- & Hi). apply range2_In in Hi.
    destruct (hole_span _ _ i (DeckBox.num p) Hc Ht Hi) as [Hlo Hhi].
    do 4 eexists. split; [reflexivity|]. split; [reflexivity|].
    split; [reflexivity|]. split; [exact Hlo|]. split; [exact Hhi|].
    unfold DeckBox.h. split; lra.
  - rewrite divider_back_and_front_calls in Hhole. cbn [calls fst] in Hhole.
    apply in_map_iff in Hhole as (i & <- & Hi). apply range2_In in Hi.
    destruct (hole_span _ _ i (DeckBox.num p) Hc Ht Hi) as [Hlo Hhi].
    do 4 eexists. split; [reflexivity|]. split; [reflexivity|].
    split; [reflexivity|]. split; [exact Hlo|]. split; [exact Hhi|].
    unfold DeckBox.h. split; lra.
Qed.

Lemma divider_holes_fit_walls_witness :
  0 < DeckBox.deckheight scenarioA /\
  0 < DeckBox.cardwidth scenarioA /\
  0 < DeckBox.cardheight scenarioA /\
  0 < DeckBox.thickness scenarioA /\
  map (fun w => (wall_label w, wall_callbacks w))
    (filter has_callbacks (calls (DeckBox.render scenarioA))) =
    [ (Some "Bottom", [cb_divider_bottom]);
      (Some "Back", [cb_divider_back_and_front]);
      (Some "Front", [cb_divider_back_and_front]) ].
Proof.
  assert (Hc : 0 < DeckBox.deckheight scenarioA) by reflexivity.
  assert (Hw : 0 < DeckBox.cardwidth scenarioA) by reflexivity.
  assert (Hh : 0 < DeckBox.cardheight scenarioA) by reflexivity.
  assert (Ht : 0 < DeckBox.thickness scenarioA) by reflexivity.
  repeat (split; [assumption|]).
  exact (proj1 (divider_holes_fit_walls scenarioA Hc Hw Hh Ht)).
Defined.

(** ** Lid, bottom and topper *)

(** X9. With positive thickness the Lid, the Bottom and the Lid topper
    of a run all have the width of the box, and their depths are
    strictly ordered: the topper is exactly [cardwidth] deep, the Lid is
    1.8 thicknesses deeper than the topper and 0.2 thicknesses short of
    the Bottom, which is [boxdepth] deep. *)
Theorem lid_between_topper_and_bottom (p : DeckBox.t) :
  0 < DeckBox.thickness p ->
  let tr := calls (DeckBox.render p) in
  exists lid bottom topper : Q,
    map wall_dims (labelled "Lid" tr) = [Some (DeckBox.boxwidth p, lid)] /\
    map wall_dims (labelled "Bottom" tr) = [Some (DeckBox.boxwidth p, bottom)] /\
    map wall_dims (labelled "Lid topper" tr) = [Some (DeckBox.boxwidth p, topper)] /\
    topper == DeckBox.cardwidth p /\
    bottom == DeckBox.boxdepth p /\
    lid - topper == 1.8 * DeckBox.thickness p /\
    bottom - lid == 0.2 * DeckBox.thickness p /\
    topper < lid /\ lid < bottom.
Proof.
  intros Ht tr. subst tr.
  exists (DeckBox.boxdepth p - DeckBox.thickness p * 0.2),
         (DeckBox.boxdepth p),
         (DeckBox.boxdepth p - 2 * DeckBox.thickness p).
  split; [count_labelled p; reflexivity|].
  split; [count_labelled p; reflexivity|].
  split; [count_labelled p; reflexivity|].
  unfold DeckBox.boxdepth. repeat split; try ring; lra.
Qed.

Lemma lid_between_topper_and_bottom_witness :
  0 < DeckBox.thickness scenarioA /\
  exists lid bottom topper : Q,
    map wall_dims (labelled "Lid" (calls (DeckBox.render scenarioA)))
      = [Some (DeckBox.boxwidth scenarioA, lid)] /\
    map wall_dims (labelled "Bottom" (calls (DeckBox.render scenarioA)))
      = [Some (DeckBox.boxwidth scenarioA, bottom)] /\
    map wall_dims (labelled "Lid topper" (calls (DeckBox.render scenarioA)))
      = [Some (DeckBox.boxwidth scenarioA, topper)] /\
    topper < lid /\ lid < bottom.
Proof.
  assert (Ht : 0 < DeckBox.thickness scenarioA) by reflexivity.
  split; [exact Ht|].
  destruct (lid_between_topper_and_bottom scenarioA Ht)
    as (lid & bottom & topper & H1 & H2 & H3 & _ & _ & _ & _ & H4 & H5).
  exists lid, bottom, topper. repeat split; assumption.
Defined.

(** ** The edges a run registers *)

(** X10. The objects a run binds, when called on an edge of any length:
    the one under [a] insets the edge by exactly the material thickness
    (segments thickness, length, thickness), the one under [A] cuts a
    notch a fifth of [cardheight] deep between two outer segments of
    length/2 - 10; both return and turn by zero degrees in all. *)
Theorem registered_edges_behaviour (p : DeckBox.t) (length : Q) :
  let tr := calls (DeckBox.render p) in
  exists inset notch : EdgePart,
    registered tr "a" = Some inset /\
    registered tr "A" = Some notch /\
    result (call_edge inset length) = Returned tt /\
    result (call_edge notch length) = Returned tt /\
    edge_lengths (calls (call_edge inset length))
      = [DeckBox.thickness p; length; DeckBox.thickness p] /\
    edge_lengths (calls (call_edge notch length))
      = [length / 2 - 10; DeckBox.cardheight p / 5;
         DeckBox.cardheight p / 5; length / 2 - 10] /\
    net_turning (calls (call_edge inset length)) = 0%Z /\
    net_turning (calls (call_edge notch length)) = 0%Z.
Proof.
  cbv zeta. rewrite !render_registered. cbn [Ascii.eqb Bool.eqb].
  do 2 eexists. repeat split.
Qed.

(** ** Sizes of the walls *)

Lemma boxwidth_positive (p : DeckBox.t) :
  (1 <= DeckBox.num p)%Z -> 0 < DeckBox.deckheight p -> 0 < DeckBox.thickness p ->
  0 < DeckBox.boxwidth p.
Proof.
  intros Hn Hc Ht. unfold DeckBox.boxwidth.
  assert (H : 0 < inject_Z (DeckBox.num p) * (DeckBox.deckheight p + DeckBox.thickness p)).
  { apply Qmult_lt_0_compat; [|lra].
    change 0 with (inject_Z 0). rewrite <- Zlt_Qlt. lia. }
  set (a := inject_Z (DeckBox.num p) * (DeckBox.deckheight p + DeckBox.thickness p)) in *.
  lra.
Qed.

(** X11. With [num >= 1] and positive [deckheight], [cardwidth],
    [cardheight] and [thickness], every wall of a run, drawn or not, has
    a positive width and a positive height. *)
Theorem walls_have_positive_size (p : DeckBox.t) :
  (1 <= DeckBox.num p)%Z ->
  0 < DeckBox.deckheight p ->
  0 < DeckBox.cardwidth p ->
  0 < DeckBox.cardheight p ->
  0 < DeckBox.thickness p ->
  forall (w : call) (X Y : Q),
    In w (calls (DeckBox.render p)) -> wall_dims w = Some (X, Y) ->
    0 < X /\ 0 < Y.
Proof.
  intros Hn Hc Hcw Hch Ht w X Y Hw Hdims.
  pose proof (boxwidth_positive p Hn Hc Ht) as Hx.
  rewrite render_calls in Hw. cbn [calls fst] in Hw. cbv zeta in Hw.
  unfold DeckBox.boxdepth, DeckBox.h in Hw.
  set (x := DeckBox.boxwidth p) in *.
  rewrite !in_app_iff, in_map_iff, in_flat_map in Hw.
  destruct Hw as [Hw | [(_ & <- & _) | [(_ & _ & Hw) | Hw]]].
  - cbn [In] in Hw.
    repeat (destruct Hw as [<- | Hw];
            [ cbn [wall_dims] in Hdims; try discriminate Hdims;
              injection Hdims as <- <-; split; lra | ]).
    destruct Hw.
  - cbn [wall_dims] in Hdims. injection Hdims as <- <-. split; lra.
  - cbn [In] in Hw. destruct Hw as [<- | [<- | []]];
      cbn [wall_dims] in Hdims; injection Hdims as <- <-; split; lra.
  - cbn [In] in Hw. destruct Hw as [<- | []].
    cbn [wall_dims] in Hdims. injection Hdims as <- <-. split; lra.
Qed.

Lemma walls_have_positive_size_witness :
  (1 <= DeckBox.num scenarioA)%Z /\
  0 < DeckBox.deckheight scenarioA /\
  0 < DeckBox.cardwidth scenarioA /\
  0 < DeckBox.cardheight scenarioA /\
  0 < DeckBox.thickness scenarioA /\
  0 < DeckBox.boxwidth scenarioA /\
  0 < DeckBox.boxdepth scenarioA - 2 * DeckBox.thickness scenarioA.
Proof.
  assert (Hn : (1 <= DeckBox.num scenarioA)%Z) by (cbn; lia).
  assert (Hc : 0 < DeckBox.deckheight scenarioA) by reflexivity.
  assert (Hw : 0 < DeckBox.cardwidth scenarioA) by reflexivity.
  assert (Hh : 0 < DeckBox.cardheight scenarioA) by reflexivity.
  assert (Ht : 0 < DeckBox.thickness scenarioA) by reflexivity.
  do 5 (split; [assumption|]).
  apply (walls_have_positive_size scenarioA Hn Hc Hw Hh Ht
           (rectangularWall (DeckBox.boxwidth scenarioA)
              (DeckBox.boxdepth scenarioA - 2 * DeckBox.thickness scenarioA)
              "eeee" None "right" (Some "Lid topper"))).
  - rewrite render_calls. cbn [calls fst]. cbv zeta.
    rewrite !in_app_iff. right. right. right. left. reflexivity.
  - reflexivity.
Defined.

(** ** The width of the box, accounted for *)

Lemma Qsum_const_loop {A : Type} (w : call) (l : list A) :
  Qsum (map wall_width (flat_map (fun _ => [w]) l))
    == inject_Z (Z.of_nat (List.length l)) * wall_width w.
Proof.
  induction l as [|i l IH].
  - cbn. ring.
  - cbn [flat_map app map Qsum fold_right List.length].
    fold (Qsum (map wall_width (flat_map (fun _ => [w]) l))). rewrite IH.
    rewrite Nat2Z.inj_succ, <- Z.add_1_r, inject_Z_plus.
    change (inject_Z 1) with 1. ring.
Qed.

Lemma render_front_inlays (p : DeckBox.t) :
  labelled "Front inlay" (calls (DeckBox.render p)) =
    flat_map (fun _ =>
      [rectangularWall (DeckBox.deckheight p) (DeckBox.h p) "eeee" None "right"
         (Some "Front inlay")]) (range (DeckBox.num p)).
Proof.
  unfold labelled. rewrite (render_panels p). cbv zeta.
  rewrite !filter_app, filter_map_const, filter_flat_map_const.
  generalize (range (DeckBox.num p)), (range (DeckBox.num p - 1)).
  intros inlays dividers. cbn. now rewrite app_nil_r.
Qed.

(** X12. With [num >= 1] the width of the box is used up exactly: the
    Front inlays of a run, one per compartment and each [deckheight]
    wide, one thickness for every Divider the run draws and one
    thickness for each of the two inner side walls add up to
    [boxwidth]. *)
Theorem boxwidth_accounted_for (p : DeckBox.t) :
  (1 <= DeckBox.num p)%Z ->
  let tr := calls (DeckBox.render p) in
  Qsum (map wall_width (labelled "Front inlay" tr))
  + inject_Z (Z.of_nat (List.length (labelled "Divider" tr))) * DeckBox.thickness p
  + inject_Z (Z.of_nat (List.length (labelled "Inner Side Left" tr)
                        + List.length (labelled "Inner Side Right" tr)))
    * DeckBox.thickness p
  == DeckBox.boxwidth p.
Proof.
  intros Hn tr. subst tr.
  assert (Hdiv : Z.of_nat (List.length (labelled "Divider" (calls (DeckBox.render p))))
                 = (DeckBox.num p - 1)%Z) by (count_labelled p; lia).
  assert (Hl : List.length (labelled "Inner Side Left" (calls (DeckBox.render p)))
               = 1%nat) by (count_labelled p; reflexivity).
  assert (Hr : List.length (labelled "Inner Side Right" (calls (DeckBox.render p)))
               = 1%nat) by (count_labelled p; reflexivity).
  assert (Hin : Qsum (map wall_width (labelled "Front inlay" (calls (DeckBox.render p))))
                == inject_Z (DeckBox.num p) * DeckBox.deckheight p).
  { rewrite render_front_inlays, Qsum_const_loop, range_length, Z2Nat.id by lia.
    reflexivity. }
  rewrite Hin, Hdiv, Hl, Hr. unfold DeckBox.boxwidth.
  unfold Zminus. rewrite inject_Z_plus.
  change (inject_Z (Z.of_nat (1 + 1))) with 2. change (inject_Z (- (1))) with (- (1)).
  ring.
Qed.

Lemma boxwidth_accounted_for_witness :
  (1 <= DeckBox.num scenarioA)%Z /\
  Qsum (map wall_width (labelled "Front inlay" (calls (DeckBox.render scenarioA))))
  + inject_Z (Z.of_nat (List.length (labelled "Divider" (calls (DeckBox.render scenarioA)))))
    * DeckBox.thickness scenarioA
  + inject_Z (Z.of_nat
      (List.length (labelled "Inner Side Left" (calls (DeckBox.render scenarioA)))
       + List.length (labelled "Inner Side Right" (calls (DeckBox.render scenarioA)))))
    * DeckBox.thickness scenarioA
  == DeckBox.boxwidth scenarioA.
Proof.
  assert (Hn : (1 <= DeckBox.num scenarioA)%Z) by (cbn; lia).
  split; [exact Hn|].
  exact (boxwidth_accounted_for scenarioA Hn).
Defined.

(** ** The shape of the two edges *)

(** X13. Followed from any pose, the path of [InsetEdge] steps one
    thickness to the left of the edge, runs the whole [length] parallel
    to it at that distance, and steps back onto it: after two calls the
    pen is [thickness] to the left of where it started, after four it is
    [length] further along at the same distance, and it ends on the edge,
    [length] from the start, heading as at the start. *)
Theorem inset_edge_profile (s : InsetEdgeSettings.t) (length : Q)
    (p0 : Turtle.pose) :
  let path := calls (InsetEdge.__call__ s length) in
  let t := InsetEdgeSettings.thickness s in
  let fwd := Turtle.unit (Turtle.heading p0) in
  let left := Turtle.unit (Turtle.left_of (Turtle.heading p0)) in
  exists q1 q2 p1 : Turtle.pose,
    Turtle.run p0 (firstn 2 path) = Some q1 /\
    Turtle.run p0 (firstn 4 path) = Some q2 /\
    Turtle.run p0 path = Some p1 /\
    Turtle.px q1 == Turtle.px p0 + t * fst left /\
    Turtle.py q1 == Turtle.py p0 + t * snd left /\
    Turtle.px q2 == Turtle.px p0 + t * fst left + length * fst fwd /\
    Turtle.py q2 == Turtle.py p0 + t * snd left + length * snd fwd /\
    Turtle.px p1 == Turtle.px p0 + length * fst fwd /\
    Turtle.py p1 == Turtle.py p0 + length * snd fwd /\
    Turtle.heading p1 = Turtle.heading p0.
Proof.
  destruct p0 as [x0 y0 []]; do 3 eexists;
    (split; [reflexivity|]); (split; [reflexivity|]); (split; [reflexivity|]);
    cbn; repeat split; ring.
Qed.

(** X14. Followed from any pose, the path of [FingerHoleEdge] opens its
    notch at length/2 - 10 along the edge and closes it at length/2 + 10:
    the notch is 20 wide whatever the length, its middle is the middle
    of the edge, and both flanks reach a fifth of the wall height to the
    left of the edge. *)
Theorem finger_hole_notch_centred (s : FingerHoleEdgeSettings.t) (length : Q)
    (p0 : Turtle.pose) :
  let path := calls (FingerHoleEdge.__call__ s length) in
  let depth := FingerHoleEdgeSettings.wallheight s / 5 in
  let fwd := Turtle.unit (Turtle.heading p0) in
  let left := Turtle.unit (Turtle.left_of (Turtle.heading p0)) in
  exists q1 q2 : Turtle.pose,
    Turtle.run p0 (firstn 3 path) = Some q1 /\
    Turtle.run p0 (firstn 4 path) = Some q2 /\
    Turtle.px q1 == Turtle.px p0 + (length / 2 - 10) * fst fwd + depth * fst left /\
    Turtle.py q1 == Turtle.py p0 + (length / 2 - 10) * snd fwd + depth * snd left /\
    Turtle.px q2 == Turtle.px p0 + (length / 2 + 10) * fst fwd + depth * fst left /\
    Turtle.py q2 == Turtle.py p0 + (length / 2 + 10) * snd fwd + depth * snd left /\
    (Turtle.px q1 + Turtle.px q2) / 2
      == Turtle.px p0 + (length / 2) * fst fwd + depth * fst left /\
    (Turtle.py q1 + Turtle.py q2) / 2
      == Turtle.py p0 + (length / 2) * snd fwd + depth * snd left.
Proof.
  destruct p0 as [x0 y0 []]; do 2 eexists;
    (split; [reflexivity|]); (split; [reflexivity|]);
    cbn; repeat split; field.
Qed.

(** ** What a run calls, and how often *)

(** X4. For every [num], also 0 and negative, a run calls [addPart]
    twice, enters five saved contexts and leaves each of them, and calls
    [rectangularWall] 17 + max(0, num - 1) + 2 * max(0, num) times;
    it calls nothing else on the base class: no [corner], [edge] or
    [fingerHolesAt] of its own.  Of the walls,
    12 + max(0, num - 1) + 2 * max(0, num) are drawn, max(0, num - 1) of
    them labelled Divider and max(0, num) each Front inlay and Back
    inlay. *)
Theorem render_call_count (p : DeckBox.t) :
  let tr := calls (DeckBox.render p) in
  let dividers := Z.max 0 (DeckBox.num p - 1) in
  let pairs := Z.max 0 (DeckBox.num p) in
  List.length (filter is_addPart tr) = 2%nat /\
  List.length (filter is_ctx_save tr) = 5%nat /\
  List.length (filter is_ctx_restore tr) = 5%nat /\
  forallb (fun c => is_addPart c || is_ctx_save c || is_ctx_restore c || is_wall c)
    tr = true /\
  Z.of_nat (List.length (filter is_wall tr)) = (17 + dividers + 2 * pairs)%Z /\
  Z.of_nat (List.length (panels tr)) = (12 + dividers + 2 * pairs)%Z /\
  Z.of_nat (List.length (labelled "Divider" tr)) = dividers /\
  Z.of_nat (List.length (labelled "Front inlay" tr)) = pairs /\
  Z.of_nat (List.length (labelled "Back inlay" tr)) = pairs.
Proof.
  cbv zeta.
  split.
  { rewrite render_calls. cbn [calls fst]. cbv zeta.
    rewrite !filter_app, filter_map_const, filter_flat_map_const.
    cbn [filter is_addPart]. now rewrite flat_map_const_nil. }
  split.
  { rewrite render_calls. cbn [calls fst]. cbv zeta.
    rewrite !filter_app, filter_map_const, filter_flat_map_const.
    cbn [filter is_ctx_save]. now rewrite flat_map_const_nil. }
  split.
  { rewrite render_calls. cbn [calls fst]. cbv zeta.
    rewrite !filter_app, filter_map_const, filter_flat_map_const.
    cbn [filter is_ctx_restore]. now rewrite flat_map_const_nil. }
  split.
  { rewrite render_calls. cbn [calls fst]. cbv zeta.
    rewrite forallb_app. apply andb_true_intro. split; [reflexivity|].
    apply loops_forallb; reflexivity. }
  split.
  { rewrite render_calls. cbn [calls fst]. cbv zeta.
    rewrite !filter_app, filter_map_const, filter_flat_map_const.
    cbn [filter is_wall].
    rewrite !length_app, length_map, flat_map_const_length, !range_length.
    cbn [List.length]. lia. }
  split.
  { rewrite (render_panels p). cbv zeta.
    rewrite !length_app, length_map, flat_map_const_length, !range_length.
    cbn [List.length]. lia. }
  repeat split; count_labelled p; lia.
Qed.
